(** * Shenidam: a shallow embedding of [shenidam.c]

    The development follows the C source function by function; the line
    numbers are those of [shenidam.c].

    - Machine integers are [Z] with the wrap-around written out: [size_t] is
      64 bits wide and [int] 32 bits wide (LP64), and a conversion to [int]
      keeps the low 32 bits.
    - Floating-point data are IEEE 754 numbers in the inductive
      representation of [SpecFloat]: [sample_d] (C [float]) is binary32 and
      [double] is binary64, each operation is rounded to the type C gives it
      ([FLT_EVAL_METHOD] 0), so the model computes.
    - The loops under [#pragma omp parallel for] are run in index order.
    - The product of two spectrum bins is the C99 [float complex] product
      (annex G.5.1), which recovers infinities.
    - The transform provider (FFTW), the resampler provider (libsamplerate),
      the allocator and what [config.h] and OpenMP decide are external: they
      are the fields of the record [environment].
    - A call returns, leaves by [longjmp], leaves the defined behaviour of C,
      or does not terminate: type [outcome]. *)

From Stdlib Require Import ZArith List Lia Bool.
From Stdlib Require Import Floats.SpecFloat.
Import ListNotations.
Open Scope Z_scope.

(** ** Machine integers *)

Module Mach.

Definition size_t_modulus : Z := 2 ^ 64.
Definition int_modulus : Z := 2 ^ 32.
Definition int_half : Z := 2 ^ 31.

(** Conversion of a mathematical integer to [size_t]: reduction modulo 2^64. *)
Definition to_size_t (z : Z) : Z := z mod size_t_modulus.

(** Conversion to [int]: reduction to the signed 32-bit window. *)
Definition to_int (z : Z) : Z := (z + int_half) mod int_modulus - int_half.

Definition in_size_t (z : Z) : bool := (0 <=? z) && (z <? size_t_modulus).
Definition in_int (z : Z) : bool := (- int_half <=? z) && (z <? int_half).

End Mach.

(** ** IEEE 754 arithmetic for [float] and [double] *)

Module IEEE.

Definition sample_d := spec_float.   (* typedef float sample_d; *)
Definition double := spec_float.

Definition prec32 : Z := 24.
Definition emax32 : Z := 128.
Definition prec64 : Z := 53.
Definition emax64 : Z := 1024.

Definition dzero : double := S754_zero false.

(** Integer to floating point, round to nearest even. *)
Definition double_of_Z (n : Z) : double := binary_normalize prec64 emax64 n 0 false.
Definition float_of_Z (n : Z) : sample_d := binary_normalize prec32 emax32 n 0 false.

(** [float] to [double] is exact: every binary32 number is a binary64
    number.  The model keeps the number's mantissa and exponent; the binary64
    operations below round their exact result whatever the representation of
    their arguments. *)
Definition double_of_float (x : sample_d) : double := x.

(** [double] to [float] rounds to nearest even (overflow gives an infinity). *)
Definition float_of_double (x : double) : sample_d :=
  match x with
  | S754_finite s m e => binary_normalize prec32 emax32 (cond_Zopp s (Zpos m)) e s
  | _ => x
  end.

Definition dadd : double -> double -> double := SFadd prec64 emax64.
Definition dsub : double -> double -> double := SFsub prec64 emax64.
Definition dmul : double -> double -> double := SFmul prec64 emax64.
Definition ddiv : double -> double -> double := SFdiv prec64 emax64.
Definition dsqrt : double -> double := SFsqrt prec64 emax64.
Definition fadd : sample_d -> sample_d -> sample_d := SFadd prec32 emax32.
Definition fsub : sample_d -> sample_d -> sample_d := SFsub prec32 emax32.
Definition fmul : sample_d -> sample_d -> sample_d := SFmul prec32 emax32.

(** C comparisons; each is false as soon as an operand is a NaN, except [!=]. *)
Definition flt (x y : spec_float) : bool := SFltb x y.
Definition fle (x y : spec_float) : bool := SFleb x y.
Definition feq (x y : spec_float) : bool := SFeqb x y.
Definition fgt (x y : spec_float) : bool := SFltb y x.
Definition fne (x y : spec_float) : bool := negb (SFeqb x y).

Definition is_nan (x : spec_float) : bool :=
  match x with S754_nan => true | _ => false end.

(** [DBL_MAX] of <float.h>: (2^53 - 1) * 2^971. *)
Definition DBL_MAX : double := S754_finite false (2 ^ 53 - 1) 971.

(** C [round]: to the nearest integer, halfway cases away from zero.  The
    result is the integer itself; [None] for an infinity or a NaN. *)
Definition round_half_away (x : double) : option Z :=
  match x with
  | S754_zero _ => Some 0
  | S754_finite s m e =>
      let a := if 0 <=? e then Zpos m * 2 ^ e
               else (2 * Zpos m + 2 ^ (- e)) / (2 * 2 ^ (- e)) in
      Some (cond_Zopp s a)
  | _ => None
  end.

(** C [ceil]: the least integer not below the argument. *)
Definition ceiling (x : double) : option Z :=
  match x with
  | S754_zero _ => Some 0
  | S754_finite s m e =>
      Some (if 0 <=? e then cond_Zopp s (Zpos m * 2 ^ e)
            else - ((- cond_Zopp s (Zpos m)) / 2 ^ (- e)))
  | _ => None
  end.

End IEEE.

Import Mach IEEE.

(** ** [normalize] (lines 109-137) *)

(** The reduction loop of lines 114-118: [mean += samples[i]] and
    [var += samples[i]*samples[i]], the product being a [float] product. *)
Definition normalize_sums (samples : list sample_d) : double * double :=
  fold_left
    (fun (acc : double * double) (x : sample_d) =>
       (dadd (fst acc) (double_of_float x),
        dadd (snd acc) (double_of_float (fmul x x))))
    samples (dzero, dzero).

Definition normalize_mean (samples : list sample_d) : double :=
  ddiv (fst (normalize_sums samples)) (double_of_Z (Z.of_nat (length samples))).

(** Line 120: [var = sqrt(var - mean*mean)], on the sum of the squares. *)
Definition normalize_var (samples : list sample_d) : double :=
  let mean := normalize_mean samples in
  dsqrt (dsub (snd (normalize_sums samples)) (dmul mean mean)).

Definition normalize (samples : list sample_d) : list sample_d :=
  let mean := normalize_mean samples in
  let var := normalize_var samples in
  if feq var dzero
  then map (fun x => float_of_double (dsub (double_of_float x) mean)) samples
  else map (fun x => float_of_double (ddiv (dsub (double_of_float x) mean) var)) samples.

(** The normalization as the specification words it, to compare with
    [normalize]: the mean is subtracted and the result divided by the
    standard deviation, the square root of the mean of the squares minus the
    square of the mean, unless that is zero. *)
Definition standard_deviation (samples : list sample_d) : double :=
  let n := double_of_Z (Z.of_nat (length samples)) in
  let mean := normalize_mean samples in
  dsqrt (dsub (ddiv (snd (normalize_sums samples)) n) (dmul mean mean)).

Definition normalize_by_standard_deviation (samples : list sample_d) : list sample_d :=
  let mean := normalize_mean samples in
  let sd := standard_deviation samples in
  if feq sd dzero
  then map (fun x => float_of_double (dsub (double_of_float x) mean)) samples
  else map (fun x => float_of_double (ddiv (dsub (double_of_float x) mean) sd)) samples.

(** ** Outcomes of a call

    [ehmalloc] leaves the current function by [longjmp] when the allocator
    is exhausted; the entry points turn that jump into [ALLOCATION_ERROR].
    A call can also leave the defined behaviour of C, or never return. *)

Inductive fault : Type :=
| UndefinedBehaviour
| NonTermination.

Inductive outcome (A : Type) : Type :=
| Ret (a : A)
| Longjmp
| Fault (f : fault).

Arguments Ret {A} a.
Arguments Longjmp {A}.
Arguments Fault {A} f.

Definition bind {A B : Type} (m : outcome A) (k : A -> outcome B) : outcome B :=
  match m with
  | Ret a => k a
  | Longjmp => Longjmp
  | Fault f => Fault f
  end.

Notation "x <- m ;; k" := (bind m (fun x => k))
  (at level 61, m at next level, right associativity).
Notation "' p <- m ;; k" := (bind m (fun p => k))
  (at level 61, p pattern, m at next level, right associativity).

(** A loop body run once per element, left to right. *)
Fixpoint mapM {A B : Type} (f : A -> outcome B) (l : list A) : outcome (list B) :=
  match l with
  | [] => Ret []
  | a :: l' => b <- f a ;; bs <- mapM f l' ;; Ret (b :: bs)
  end.

(** ** [get_common_size] (lines 284-292)

    [res <<= 1] is a 64-bit shift: the bit shifted out is lost.  The loop is
    given fuel; [None] is a run that has not left the loop. *)

Fixpoint get_common_size_loop (fuel : nat) (res minimal_size : Z) : option Z :=
  if res <? minimal_size
  then match fuel with
       | O => None
       | S fuel' => get_common_size_loop fuel' (to_size_t (Z.shiftl res 1)) minimal_size
       end
  else Some res.

(** After 64 shifts [res] is 0 and stays 0, so 65 rounds decide the loop. *)
Definition get_common_size (minimal_size : Z) : option Z :=
  get_common_size_loop 65 1 minimal_size.

(** The property the specification asks of the result. *)
Definition is_power_of_two (z : Z) : Prop := exists k : Z, 0 <= k /\ z = 2 ^ k.

Definition smallest_power_of_two_geq (n r : Z) : Prop :=
  is_power_of_two r /\ n <= r /\ forall p, is_power_of_two p -> n <= p -> r <= p.

(** ** Declarations of [shenidam.h] *)

(** Modelled from the spec: [shenidam.h] is not among the sources.  The
    status codes are the five outcomes of the error taxonomy (section 7); the
    four error codes are the distinct [case] labels of
    [shenidam_get_error_message]. *)
Inductive status : Type :=
| SUCCESS
| INVALID_ARGUMENT
| ALREADY_SET_BASE_SIGNAL
| BASE_SIGNAL_NOT_SET
| ALLOCATION_ERROR.

(** Modelled from the spec: the format tags of [shenidam.h], the seven
    supported raw sample formats of section 6.  [FORMAT_OTHER] stands for an
    [int] that is none of the seven. *)
Inductive format : Type :=
| FORMAT_BYTE
| FORMAT_SHORT
| FORMAT_INT
| FORMAT_LONG
| FORMAT_LONG_LONG
| FORMAT_DOUBLE
| FORMAT_SINGLE
| FORMAT_OTHER (tag : Z).

(** A cell of the caller's raw buffer, as the value it holds when read at
    the type its format tag selects. *)
Inductive raw_value : Type :=
| RawInteger (z : Z)
| RawDouble (d : double)
| RawSingle (x : sample_d).

(** The cast to [sample_d] of the cell under [cur.mem], and the bytes
    [memcpy] moves for a [float]. *)
Definition cast_to_sample (v : raw_value) : sample_d :=
  match v with
  | RawInteger z => float_of_Z z
  | RawDouble d => float_of_double d
  | RawSingle x => x
  end.

(** A complex bin of a spectrum: real and imaginary part.  <complex.h> is
    included before "fftw3.h" (lines 21 and 27), so [fftwf_complex] is the
    C99 type [float complex] and the [*] of line 444 is the C99 complex
    product. *)
Definition sample_f : Type := sample_d * sample_d.

Definition is_inf (x : spec_float) : bool :=
  match x with S754_infinity _ => true | _ => false end.

(** The sign bit.  The model's NaN carries none; the one it is given here
    never reaches a product (see [recover_sign_of_zero]). *)
Definition signbit (x : spec_float) : bool :=
  match x with
  | S754_zero s | S754_infinity s | S754_finite s _ _ => s
  | S754_nan => false
  end.

Definition copysign (x y : sample_d) : sample_d :=
  match x with
  | S754_zero _ => S754_zero (signbit y)
  | S754_infinity _ => S754_infinity (signbit y)
  | S754_finite _ m e => S754_finite (signbit y) m e
  | S754_nan => S754_nan
  end.

Definition INFINITY : sample_d := S754_infinity false.

(** [copysignf(isinf(x) ? 1 : 0, x)] and [if (isnan(x)) x = copysignf(0, x)]. *)
Definition box (x : sample_d) : sample_d :=
  copysign (float_of_Z (if is_inf x then 1 else 0)) x.

Definition nan_to_zero (x : sample_d) : sample_d :=
  if is_nan x then copysign (S754_zero false) x else x.

(** [INFINITY * (a*c - b*d)] and [INFINITY * (a*d + b*c)]. *)
Definition recover (a b c d : sample_d) : sample_f :=
  (fmul INFINITY (fsub (fmul a c) (fmul b d)),
   fmul INFINITY (fadd (fmul a d) (fmul b c))).

(** The product [z * w] of two [float complex] (C99 annex G.5.1, which the
    compiler's run-time routine follows line by line): the four products and
    the two sums rounded to [float], and, when both parts come out NaN, the
    infinities recovered. *)
Definition complex_mul (z w : sample_f) : sample_f :=
  let a := fst z in
  let b := snd z in
  let c := fst w in
  let d := snd w in
  let ac := fmul a c in
  let bd := fmul b d in
  let ad := fmul a d in
  let bc := fmul b c in
  let x := fsub ac bd in
  let y := fadd ad bc in
  if is_nan x && is_nan y then
    let z_infinite := is_inf a || is_inf b in
    let '(a, b, c, d) :=
      if z_infinite then (box a, box b, nan_to_zero c, nan_to_zero d)
      else (a, b, c, d) in
    let w_infinite := is_inf c || is_inf d in
    let '(a, b, c, d) :=
      if w_infinite then (nan_to_zero a, nan_to_zero b, box c, box d)
      else (a, b, c, d) in
    let recalc := z_infinite || w_infinite in
    let overflowed :=
      negb recalc && (is_inf ac || is_inf bd || is_inf ad || is_inf bc) in
    let '(a, b, c, d) :=
      if overflowed then (nan_to_zero a, nan_to_zero b, nan_to_zero c, nan_to_zero d)
      else (a, b, c, d) in
    if recalc || overflowed then recover a b c d else (x, y)
  else (x, y).

(** [conjf]. *)
Definition conjf (z : sample_f) : sample_f := (fst z, SFopp (snd z)).

(** Line 444: [conjf(a) * b]. *)
Definition conj_mul (a b : sample_f) : sample_f := complex_mul (conjf a) b.

(** A filter callback [(spectrum, binCount, context)]; it mutates the
    spectrum in place, so the model returns the spectrum it leaves.  A
    context is a [void*], an address. *)
Definition frequential_filter_cb : Type := list sample_f -> Z -> Z -> list sample_f.

(** The binary32 number with the given 32-bit pattern. *)
Definition float_of_bits (b : Z) : sample_d :=
  let s := Z.testbit b 31 in
  let e := (b / 2 ^ 23) mod 2 ^ 8 in
  let m := b mod 2 ^ 23 in
  if e =? 0 then
    match m with Zpos p => S754_finite s p (-149) | _ => S754_zero s end
  else if e =? 255 then
    (if m =? 0 then S754_infinity s else S754_nan)
  else
    match m + 2 ^ 23 with Zpos p => S754_finite s p (e - 150) | _ => S754_nan end.

(** [sizeof] on the modelled target. *)
Definition sizeof_sample_d : Z := 4.
Definition sizeof_pointer : Z := 8.
Definition sizeof_size_t : Z := 8.

(** ** External collaborators

    What the code takes from its environment, gathered in one record. *)
Record environment : Type := {
  (** The allocator: whether [malloc] of that many bytes returns a block. *)
  malloc_ok : Z -> bool;
  (** The resampler provider, [src_simple] with [SRC_SINC_FASTEST] on one
      channel: from the input frames, the number of output frames asked for
      and the ratio, the frames it writes ([output_frames_gen] is their
      number). *)
  src_simple : list sample_d -> Z -> double -> list sample_d;
  (** The transform provider: the real-to-complex plan of a given length run
      on a buffer, and the complex-to-real plan. *)
  fftwf_r2c : Z -> list sample_d -> list sample_f;
  fftwf_c2r : Z -> list sample_f -> list sample_d;
  (** [config.h] is not among the sources: whether it defines
      [SHENIDAM_PARALLEL_OMP], and what [omp_get_num_threads] answers. *)
  SHENIDAM_PARALLEL_OMP : bool;
  omp_get_num_threads : Z;
  (** Indeterminate contents of the freshly allocated [buffer_sizes] table
      and the addresses of the per-thread output buffers (lines 253-262). *)
  buffer_sizes_uninit : Z -> Z;
  buffer_address : Z -> Z
}.

Section Shenidam.

Variable E : environment.

(** *** Allocation (lines 83-108) *)

Definition ehmalloc (size : Z) : outcome unit :=
  if malloc_ok E (to_size_t size) then Ret tt else Longjmp.

Definition fft_ehmalloc (size : Z) : outcome unit :=
  if malloc_ok E (to_size_t size) then Ret tt else Longjmp.

(** An unchecked [malloc]: the block is written through straight away, so a
    null result is a null dereference. *)
Definition malloc_unchecked (size : Z) : outcome unit :=
  if malloc_ok E (to_size_t size) then Ret tt else Fault UndefinedBehaviour.

(** *** [convert_to_samples] (lines 205-229)

    [Ret None] is the return value 1 (the buffer has been freed), [Ret (Some
    s)] is the return value 0 with [*samples_out = s]. *)
Definition convert_to_samples (fmt : format) (samples_in : list raw_value)
  : outcome (option (list sample_d)) :=
  let num_samples := Z.of_nat (length samples_in) in
  _ <- ehmalloc (sizeof_sample_d * num_samples) ;;
  match fmt with
  | FORMAT_SINGLE => Ret (Some (map cast_to_sample samples_in))
  | FORMAT_BYTE | FORMAT_SHORT | FORMAT_INT | FORMAT_LONG
  | FORMAT_LONG_LONG | FORMAT_DOUBLE => Ret (Some (map cast_to_sample samples_in))
  | FORMAT_OTHER _ => Ret None
  end.

(** *** [resample] (lines 231-242)

    Returns the output buffer and the value left in [*num_samples_out]. *)
Definition resample (samples_in : list sample_d) (sample_rate_ratio : double)
  (num_samples_out : Z) : outcome (list sample_d * Z) :=
  _ <- ehmalloc (num_samples_out * sizeof_sample_d) ;;
  let data_out := src_simple E samples_in num_samples_out sample_rate_ratio in
  Ret (data_out, Z.of_nat (length data_out)).

(** *** [resize] (lines 186-193)

    [min_num_samples] is an [int]; the byte count of the [memcpy] is that
    [int] converted to [size_t] and multiplied by 4. *)
Definition resize (samples_in : list sample_d) (num_samples_in num_samples_out : Z)
  : outcome (list sample_d) :=
  _ <- ehmalloc (sizeof_sample_d * num_samples_out) ;;
  let min_num_samples :=
    to_int (if num_samples_out <? num_samples_in then num_samples_out else num_samples_in) in
  let bytes := to_size_t (min_num_samples * sizeof_sample_d) in
  if (bytes <=? sizeof_sample_d * num_samples_out)
     && (bytes <=? sizeof_sample_d * Z.of_nat (length samples_in))
  then
    let copied := firstn (Z.to_nat (bytes / sizeof_sample_d)) samples_in in
    Ret (copied ++ repeat (S754_zero false)
                          (Z.to_nat num_samples_out - length copied)%nat)
  else Fault UndefinedBehaviour.

(** *** [resample_parallel] (lines 243-283) *)

(** Line 261: where thread [i] starts and how many frames it takes. *)
Definition slice_start (num_samples_in num_threads i : Z) : Z :=
  i * (num_samples_in / num_threads).

Definition current_slice_size (num_samples_in num_threads i : Z) : Z :=
  let slice_size := num_samples_in / num_threads in
  if i =? num_threads - 1 then num_samples_in - i * slice_size else slice_size.

(** The frames [&samples_in[start]] .. [&samples_in[start + len - 1]]. *)
Definition slice (samples_in : list sample_d) (start len : Z) : list sample_d :=
  firstn (Z.to_nat len) (skipn (Z.to_nat start) samples_in).

(** The values of [omp_get_thread_num] in the parallel regions, taken to
    run a team of exactly [num_threads] threads, one per slot of the tables
    (OpenMP answers at least 1 to [omp_get_num_threads]). *)
Definition thread_ids (num_threads : Z) : list Z :=
  map Z.of_nat (seq 0 (Z.to_nat num_threads)).

(** The two [float]s that overlay one 8-byte pointer (little endian). *)
Definition pointer_as_samples (p : Z) : list sample_d :=
  [float_of_bits (p mod 2 ^ 32); float_of_bits ((p / 2 ^ 32) mod 2 ^ 32)].

(** What lies at [&buffers[i]]: the pointer table from slot [i] on. *)
Definition buffers_table_from (num_threads i : Z) : list sample_d :=
  flat_map (fun k => pointer_as_samples (buffer_address E k))
           (filter (fun k => i <=? k) (thread_ids num_threads)).

(** Line 275: [memcpy(&res[cumulated_buffer_sizes[i]], &buffers[i],
    sizeof(sample_d)*buffer_sizes[i])].  The source operand is the address of
    slot [i] of the table, so the bytes copied are those of the table; a
    count that runs past the table's end is outside the allocated block. *)
Definition copy_out (num_threads : Z) (job : Z * Z) : outcome (list sample_d) :=
  let (i, size) := job in
  if sizeof_sample_d * size <=? sizeof_pointer * (num_threads - i)
  then Ret (firstn (Z.to_nat size) (buffers_table_from num_threads i))
  else Fault UndefinedBehaviour.

(** Lines 253-281, the branch taken when [num_threads] is not 1.  The
    three tables and the result come from unchecked [malloc]s; thread [i]
    asks [resample] for [buffer_sizes[i]] frames, a cell nothing has written
    yet. *)
Definition resample_chunked (samples_in : list sample_d) (sample_rate_ratio : double)
  (num_threads : Z) : outcome (list sample_d * Z) :=
  let num_samples_in := Z.of_nat (length samples_in) in
  _ <- malloc_unchecked (sizeof_pointer * num_threads) ;;
  _ <- malloc_unchecked (sizeof_size_t * num_threads) ;;
  _ <- malloc_unchecked (sizeof_size_t * (num_threads + 1)) ;;
  outs <- mapM (fun i =>
                  resample (slice samples_in
                                  (slice_start num_samples_in num_threads i)
                                  (current_slice_size num_samples_in num_threads i))
                           sample_rate_ratio (buffer_sizes_uninit E i))
               (thread_ids num_threads) ;;
  let buffer_sizes := map snd outs in
  let num_samples_out := fold_left (fun acc size => to_size_t (acc + size)) buffer_sizes 0 in
  _ <- malloc_unchecked (sizeof_sample_d * num_samples_out) ;;
  copied <- mapM (copy_out num_threads) (combine (thread_ids num_threads) buffer_sizes) ;;
  Ret (concat copied, num_samples_out).

Definition resample_parallel (samples_in : list sample_d) (sample_rate_ratio : double)
  (num_samples_out : Z) : outcome (list sample_d * Z) :=
  if negb (SHENIDAM_PARALLEL_OMP E)
  then resample samples_in sample_rate_ratio num_samples_out
  else
    let num_threads := omp_get_num_threads E in
    if num_threads =? 1
    then resample samples_in sample_rate_ratio num_samples_out
    else resample_chunked samples_in sample_rate_ratio num_threads.

(** *** [fft] and [ifft] (lines 138-184) *)

Definition sizeof_sample_f : Z := 8.

Definition fft (samples_d : list sample_d) (num_samples_d : Z) : outcome (list sample_f) :=
  let num_samples_f := num_samples_d / 2 + 1 in
  _ <- ehmalloc (sizeof_sample_f * num_samples_f) ;;
  _ <- malloc_unchecked (sizeof_sample_d * num_samples_d) ;;
  _ <- malloc_unchecked (sizeof_sample_f * num_samples_f) ;;
  Ret (fftwf_r2c E num_samples_d samples_d).

Definition ifft (samples_f : list sample_f) (num_samples_d : Z) : outcome (list sample_d) :=
  let num_samples_f := num_samples_d / 2 + 1 in
  _ <- ehmalloc (sizeof_sample_d * num_samples_d) ;;
  _ <- fft_ehmalloc (sizeof_sample_d * num_samples_d) ;;
  _ <- fft_ehmalloc (sizeof_sample_f * num_samples_f) ;;
  Ret (fftwf_c2r E num_samples_d samples_f).

(** *** The session (lines 48-57) *)

(** The sentinel-terminated callback array: where it lies and what its
    cells hold ([None] is [NULL]). *)
Record filter_table : Type := {
  table_address : Z;
  table_cells : list (option frequential_filter_cb)
}.

Record shenidam_t_impl : Type := {
  base_sample_rate : double;
  base_real_sample_rate : double;
  base : option (list sample_d);          (* [None] is [NULL] *)
  base_num_samples : Z;
  frequential_filters : filter_table;
  frequential_filter_data : list Z;       (* [[]] is [NULL] *)
  num_threads : Z
}.

(** [setjmp(jb)] at the head of an entry point: a later [longjmp] makes the
    call return [ALLOCATION_ERROR]; [s] is the session at that moment. *)
Definition with_setjmp {A : Type} (on_jump : A) (body : outcome A) : outcome A :=
  match body with
  | Longjmp => Ret on_jump
  | other => other
  end.

(** *** [shenidam_create] (lines 294-321)

    [base_real_sample_rate] and [base_num_samples] are not assigned: they
    hold whatever the block held. *)
Definition shenidam_create (rate : double) (threads : Z)
  (filters_at : Z) (junk_rate : double) (junk_count : Z) : outcome shenidam_t_impl :=
  let threads := if threads <=? 1 then 1 else threads in
  _ <- malloc_unchecked 56 ;;
  _ <- malloc_unchecked sizeof_pointer ;;
  Ret {| base_sample_rate := rate;
         base_real_sample_rate := junk_rate;
         base := None;
         base_num_samples := junk_count;
         frequential_filters := {| table_address := filters_at; table_cells := [None] |};
         frequential_filter_data := [];
         num_threads := threads |}.

(** *** [shenidam_add_frequential_filter] (lines 323-346) *)

(** Lines 336-339: [while((cur++) != NULL) n++].  The test is on the
    pointer [cur], not on the cell it points to.  A pointer may be moved up to
    one past the last cell of the array and no further. *)
Fixpoint filter_walk (fuel : nat) (table_start table_len cur n : Z) : outcome Z :=
  if cur =? 0 then Ret n
  else match fuel with
       | O => Fault NonTermination
       | S fuel' =>
           let cur' := cur + sizeof_pointer in
           if cur' <=? table_start + sizeof_pointer * table_len
           then filter_walk fuel' table_start table_len cur' (to_int (n + 1))
           else Fault UndefinedBehaviour
       end.

Definition shenidam_add_frequential_filter (s : shenidam_t_impl)
  (callback : option frequential_filter_cb) (data : Z)
  : outcome (status * shenidam_t_impl) :=
  with_setjmp (ALLOCATION_ERROR, s)
    match callback with
    | None => Ret (INVALID_ARGUMENT, s)
    | Some cb =>
        let table := frequential_filters s in
        let cells := table_cells table in
        n <- filter_walk (S (length cells)) (table_address table)
                         (Z.of_nat (length cells)) (table_address table) 0 ;;
        (* realloc(..., sizeof(frequential_filter_cb)*n+2), twice *)
        let size := to_size_t (sizeof_pointer * n + 2) in
        _ <- malloc_unchecked size ;;
        _ <- malloc_unchecked size ;;
        (* cells n and n+1 are written: they must lie inside the block *)
        if (0 <=? n) && (sizeof_pointer * (n + 2) <=? size)
        then
          Ret (SUCCESS,
               {| base_sample_rate := base_sample_rate s;
                  base_real_sample_rate := base_real_sample_rate s;
                  base := base s;
                  base_num_samples := base_num_samples s;
                  frequential_filters :=
                    {| table_address := table_address table;
                       table_cells := firstn (Z.to_nat n) cells ++ [Some cb; None] |};
                  frequential_filter_data :=
                    firstn (Z.to_nat n) (frequential_filter_data s) ++ [data];
                  num_threads := num_threads s |})
        else Fault UndefinedBehaviour
    end.

(** *** [shenidam_set_base_audio] (lines 347-374) *)

(** [(size_t)x] for an integral [double]: defined when the value fits. *)
Definition size_t_of (r : option Z) : outcome Z :=
  match r with
  | Some z => if in_size_t z then Ret z else Fault UndefinedBehaviour
  | None => Fault UndefinedBehaviour
  end.

(** The conversion to [int] of line 464, likewise. *)
Definition int_of (r : option Z) : outcome Z :=
  match r with
  | Some z => if in_int z then Ret z else Fault UndefinedBehaviour
  | None => Fault UndefinedBehaviour
  end.

Definition shenidam_set_base_audio (s : shenidam_t_impl) (fmt : format)
  (samples : list raw_value) (sample_rate : double)
  : outcome (status * shenidam_t_impl) :=
  with_setjmp (ALLOCATION_ERROR, s)
    match base s with
    | Some _ => Ret (ALREADY_SET_BASE_SIGNAL, s)
    | None =>
        let num_samples := Z.of_nat (length samples) in
        converted <- convert_to_samples fmt samples ;;
        match converted with
        | None => Ret (INVALID_ARGUMENT, s)
        | Some base0 =>
            let base1 := normalize base0 in
            num_samples_new <-
              size_t_of (round_half_away
                           (ddiv (dmul (double_of_Z num_samples) (base_sample_rate s))
                                 sample_rate)) ;;
            ' (temp, num_samples_new) <-
              resample_parallel base1 (ddiv (base_sample_rate s) sample_rate)
                                num_samples_new ;;
            Ret (SUCCESS,
                 {| base_sample_rate := base_sample_rate s;
                    base_real_sample_rate := sample_rate;
                    base := Some temp;
                    base_num_samples := num_samples_new;
                    frequential_filters := frequential_filters s;
                    frequential_filter_data := frequential_filter_data s;
                    num_threads := num_threads s |})
        end
    end.

(** *** [shenidam_get_audio_range] (lines 376-468) *)

(** Lines 435-440: every callback up to the sentinel, on the query spectrum
    and then on the base spectrum, with the context of the same rank. *)
Fixpoint apply_filters (cells : list (option frequential_filter_cb)) (data_p : list Z)
  (common_size_f : Z) (track_f base_f : list sample_f)
  : outcome (list sample_f * list sample_f) :=
  match cells with
  | None :: _ => Ret (track_f, base_f)
  | Some cur :: cells' =>
      match data_p with
      | d :: data_p' =>
          apply_filters cells' data_p' common_size_f
                        (cur track_f common_size_f d) (cur base_f common_size_f d)
      | [] => Fault UndefinedBehaviour
      end
  | [] => Fault UndefinedBehaviour
  end.

(** Lines 442-445: [track_f[i] = conjf(track_f[i]) * base_f[i]] for the first
    [common_size_f] bins. *)
Fixpoint cross_power (bins : nat) (track_f base_f : list sample_f) : list sample_f :=
  match bins, track_f, base_f with
  | S bins', t :: track_f', b :: base_f' => conj_mul t b :: cross_power bins' track_f' base_f'
  | _, _, _ => track_f
  end.

(** Lines 449-459: the scan for the peak.  [i] is the [size_t] loop counter,
    [maxv] a [float], [in_] the [int] that receives [i]. *)
Fixpoint peak_loop (convolved : list sample_d) (i : Z) (maxv : sample_d) (in_ : Z) : Z :=
  match convolved with
  | [] => in_
  | c :: rest =>
      let temp := double_of_float c in
      if fgt temp (double_of_float maxv)
      then peak_loop rest (i + 1) (float_of_double temp) (to_int i)
      else peak_loop rest (i + 1) maxv in_
  end.

Definition peak_search (convolved : list sample_d) (common_size : Z) : Z :=
  peak_loop (firstn (Z.to_nat common_size) convolved) 0
            (float_of_double (SFopp DBL_MAX)) 0.

(** Lines 460-463.  The comparison is made in [size_t]; [in -= common_size]
    is computed in [size_t] and stored back into the [int]. *)
Definition wraparound (in_ common_size num_samples : Z) : Z :=
  if to_size_t in_ >? to_size_t (common_size - num_samples / 2)
  then to_int (to_size_t (to_size_t in_ - common_size))
  else in_.

(** Lines 464-465. *)
Definition rescale (value : Z) (s : shenidam_t_impl) : option Z :=
  round_half_away (ddiv (dmul (double_of_Z value) (base_real_sample_rate s))
                        (base_sample_rate s)).

(** Lines 403-417: the query converted, normalized and brought to the
    working rate, with its sample count there. *)
Definition prepare_track (s : shenidam_t_impl) (track0 : list sample_d)
  (num_samples : Z) (sample_rate : double) : outcome (list sample_d * Z) :=
  let track := normalize track0 in
  let sample_rate_ratio := ddiv (base_sample_rate s) sample_rate in
  if fne sample_rate_ratio (double_of_Z 1)
  then
    num_samples_temp <- size_t_of (ceiling (dmul (double_of_Z num_samples) sample_rate_ratio)) ;;
    resample_parallel track sample_rate_ratio num_samples_temp
  else Ret (track, num_samples).

(** Line 419. *)
Definition padded_size (s : shenidam_t_impl) (num_samples : Z) : outcome Z :=
  match get_common_size (to_size_t (num_samples + base_num_samples s)) with
  | Some common_size => Ret common_size
  | None => Fault NonTermination
  end.

(** Lines 420-448: padding, transforms, filters, cross-power spectrum and
    inverse transform. *)
Definition correlate (s : shenidam_t_impl) (base0 track : list sample_d)
  (num_samples common_size : Z) : outcome (list sample_d) :=
  let common_size_f := common_size / 2 + 1 in
  track <- resize track num_samples common_size ;;
  base1 <- resize base0 (base_num_samples s) common_size ;;
  track_f <- fft track common_size ;;
  base_f <- fft base1 common_size ;;
  ' (track_f, base_f) <-
    apply_filters (table_cells (frequential_filters s)) (frequential_filter_data s)
                  common_size_f track_f base_f ;;
  let track_f := cross_power (Z.to_nat common_size_f) track_f base_f in
  ifft track_f common_size.

(** Lines 449-465 on the correlation: the pair written to [*in_point] and
    [*length]. *)
Definition locate (s : shenidam_t_impl) (convolved : list sample_d)
  (num_samples common_size : Z) : outcome (Z * Z) :=
  let in_ := peak_search convolved common_size in
  let in_ := wraparound in_ common_size num_samples in
  in_point <- int_of (rescale in_ s) ;;
  length <- size_t_of (rescale num_samples s) ;;
  Ret (in_point, length).

(** The result is the status, the session as the call leaves it (no line
    of the function assigns through [impl]) and, on success, the pair
    written to [*in_point] and [*length]. *)
Definition shenidam_get_audio_range (s : shenidam_t_impl) (input_format : format)
  (samples : list raw_value) (sample_rate : double)
  : outcome (status * shenidam_t_impl * option (Z * Z)) :=
  with_setjmp (ALLOCATION_ERROR, s, None)
    match base s with
    | None => Ret (BASE_SIGNAL_NOT_SET, s, None)
    | Some base0 =>
        let num_samples := Z.of_nat (length samples) in
        if fle sample_rate dzero then Ret (INVALID_ARGUMENT, s, None)
        else if num_samples =? 0 then Ret (INVALID_ARGUMENT, s, None)
        else
          converted <- convert_to_samples input_format samples ;;
          match converted with
          | None => Ret (INVALID_ARGUMENT, s, None)
          | Some track0 =>
              ' (track, num_samples) <- prepare_track s track0 num_samples sample_rate ;;
              common_size <- padded_size s num_samples ;;
              convolved <- correlate s base0 track num_samples common_size ;;
              result <- locate s convolved num_samples common_size ;;
              Ret (SUCCESS, s, Some result)
          end
    end.

End Shenidam.

(** ** A small environment to run the model

    An allocator that never fails, a resampler that picks the nearest
    frame, and the discrete Fourier transform of the lengths that divide 8,
    by its defining sum (FFTW's conventions: the forward transform gives the
    [n/2+1] first bins, the backward transform is not scaled). *)

Module Run.

Definition fzero : sample_d := S754_zero false.
Definition fone : sample_d := float_of_Z 1.

(** The [float] nearest to the square root of one half. *)
Definition half_sqrt2 : sample_d := S754_finite false 11863283 (-24).

(** The eighth roots of unity, [exp(-2 pi i j / 8)]. *)
Definition root8 (j : Z) : sample_f :=
  let c := half_sqrt2 in
  let m := SFopp in
  nth (Z.to_nat (j mod 8))
      [(fone, fzero); (c, m c); (fzero, m fone); (m c, m c);
       (m fone, fzero); (m c, c); (fzero, fone); (c, c)]
      (fone, fzero).

Definition cadd (a b : sample_f) : sample_f := (fadd (fst a) (fst b), fadd (snd a) (snd b)).

Definition cmul (a b : sample_f) : sample_f :=
  (fsub (fmul (fst a) (fst b)) (fmul (snd a) (snd b)),
   fadd (fmul (fst a) (snd b)) (fmul (snd a) (fst b))).

Definition conj (a : sample_f) : sample_f := (fst a, SFopp (snd a)).

Definition indices (n : Z) : list Z := map Z.of_nat (seq 0 (Z.to_nat n)).

Definition divides_8 (n : Z) : bool := (0 <? n) && (8 mod n =? 0).

(** Bin [k] of the transform of [x]: the sum of [x_j * w^(j k)]. *)
Definition bin (n : Z) (x : list sample_f) (k : Z) : sample_f :=
  fold_left cadd
            (map (fun j => cmul (nth (Z.to_nat j) x (fzero, fzero))
                                (root8 (j * k * (8 / n))))
                 (indices n))
            (fzero, fzero).

Definition r2c (n : Z) (x : list sample_d) : list sample_f :=
  if divides_8 n
  then map (bin n (map (fun v => (v, fzero)) x)) (indices (n / 2 + 1))
  else repeat (fzero, fzero) (Z.to_nat (n / 2 + 1)).

(** The full spectrum of a real signal from its first [n/2+1] bins. *)
Definition hermitian (n : Z) (X : list sample_f) (k : Z) : sample_f :=
  if k <=? n / 2 then nth (Z.to_nat k) X (fzero, fzero)
  else conj (nth (Z.to_nat (n - k)) X (fzero, fzero)).

Definition c2r (n : Z) (X : list sample_f) : list sample_d :=
  if divides_8 n
  then map (fun j => fst (bin n (map (fun k => conj (hermitian n X k)) (indices n)) j))
           (indices n)
  else repeat fzero (Z.to_nat n).

(** Output frame [k] is the input frame nearest below [k * in / out]. *)
Definition hold (frames : list sample_d) (output_frames : Z) (ratio : double)
  : list sample_d :=
  match frames with
  | [] => []
  | _ => map (fun k => nth (Z.to_nat (Z.of_nat k * Z.of_nat (length frames) / output_frames))
                           frames fzero)
             (seq 0 (Z.to_nat output_frames))
  end.

Definition env (alloc : Z -> bool) : environment :=
  {| malloc_ok := alloc;
     src_simple := hold;
     fftwf_r2c := r2c;
     fftwf_c2r := c2r;
     SHENIDAM_PARALLEL_OMP := false;
     omp_get_num_threads := 1;
     buffer_sizes_uninit := fun _ => 0;
     buffer_address := fun _ => 0 |}.

(** The same with OpenMP configured and a team of [threads]; the output
    buffers lie at 4096, 8192, ... and the size table holds [junk]. *)
Definition env_omp (threads junk : Z) : environment :=
  {| malloc_ok := fun _ => true;
     src_simple := hold;
     fftwf_r2c := r2c;
     fftwf_c2r := c2r;
     SHENIDAM_PARALLEL_OMP := true;
     omp_get_num_threads := threads;
     buffer_sizes_uninit := fun _ => junk;
     buffer_address := fun i => 4096 * (i + 1) |}.

Definition always (size : Z) : bool := true.
Definition never (size : Z) : bool := false.

Definition single (n : Z) : raw_value := RawSingle (float_of_Z n).

(** A session as [shenidam_create] leaves it, at the given working rate. *)
Definition fresh (rate : Z) : shenidam_t_impl :=
  {| base_sample_rate := double_of_Z rate;
     base_real_sample_rate := S754_nan;
     base := None;
     base_num_samples := 0;
     frequential_filters := {| table_address := 4096; table_cells := [None] |};
     frequential_filter_data := [];
     num_threads := 1 |}.

(** What is left of an outcome that returned. *)
Definition returned {A : Type} (default : A) (o : outcome A) : A :=
  match o with
  | Ret a => a
  | _ => default
  end.

(** A session whose base is the four samples 3, -2, 1, -1 at the working
    rate, as [shenidam_set_base_audio] commits it. *)
Definition ready : shenidam_t_impl :=
  Eval vm_compute in
    snd (returned (SUCCESS, fresh 48000)
           (shenidam_set_base_audio (env always) (fresh 48000) FORMAT_INT
              (map RawInteger [3; -2; 1; -1]) (double_of_Z 48000))).

Definition ready_base : list sample_d :=
  Eval vm_compute in match base ready with Some b => b | None => [] end.

(** The query 0, 3, -2, 1: the base, one sample late; and its stages. *)
Definition early_query : list raw_value := map RawInteger [0; 3; -2; 1].

Definition early_track0 : list sample_d :=
  Eval vm_compute in map cast_to_sample early_query.

Definition early_track : list sample_d :=
  Eval vm_compute in
    fst (returned ([], 0)
           (prepare_track (env always) ready early_track0 4 (double_of_Z 48000))).

Definition early_correlation : list sample_d :=
  Eval vm_compute in
    returned [] (correlate (env always) ready ready_base early_track 4 8).


(** The [float] 1.1 (the quotient of 11 by 10, rounded). *)
Definition one_point_one : sample_d :=
  Eval vm_compute in SFdiv prec32 emax32 (float_of_Z 11) (float_of_Z 10).

Definition half : sample_d := S754_finite false 8388608 (-24).
Definition minus_half : sample_d := S754_finite true 8388608 (-24).

(** A callback that leaves the spectrum as it is. *)
Definition keep : frequential_filter_cb := fun spectrum _ _ => spectrum.

End Run.

(** ** Vocabulary of the statements *)

(** A [float] that is a number: a valid binary32 datum other than a NaN. *)
Definition is_sample (x : sample_d) : bool :=
  valid_binary prec32 emax32 x && negb (is_nan x).

(** The initial [maxv]: [-DBL_MAX] does not fit a [float]. *)
Definition minus_infinity : sample_d := S754_infinity true.

(** [convolved[j]]. *)
Definition sample_at (convolved : list sample_d) (j : Z) : sample_d :=
  nth (Z.to_nat j) convolved (S754_zero false).

(** What the scan has established after the cells [pre]: nothing yet, or
    [in_] is the rank of the first cell no other cell of [pre] exceeds, and
    [maxv] is that cell. *)
Definition peak_inv (pre : list sample_d) (maxv : sample_d) (in_ : Z) : Prop :=
  (pre = [] /\ maxv = minus_infinity /\ in_ = 0) \/
  (exists k : nat,
      in_ = Z.of_nat k /\ (k < length pre)%nat /\
      nth k pre (S754_zero false) = maxv /\
      (forall x, In x pre -> flt maxv x = false) /\
      (forall j, (j < k)%nat -> flt (nth j pre (S754_zero false)) maxv = true)).

(** A correlation of [k + 2] values whose only maximum is the last one. *)
Definition late_peak (k : nat) : list sample_d :=
  S754_zero false :: repeat (S754_zero false) k ++ [float_of_Z 1].


(** 2^32 - 2 as a count of cells: [late_peak] of it has 2^32 cells. *)
Definition many_cells : nat := Z.to_nat 4294967294.


(** The cross-power bin as the textbook has it, conj(q) * b =
    (qr*br + qi*bi, qr*bi - qi*br), every operation rounded to [float]. *)
Definition textbook_cross_power (q b : sample_f) : sample_f :=
  (fadd (fmul (fst q) (fst b)) (fmul (snd q) (snd b)),
   fsub (fmul (fst q) (snd b)) (fmul (snd q) (fst b))).

(** Two zeros, of any signs, or two NaNs. *)
Definition zero_or_nan (x x' : spec_float) : Prop :=
  (x = S754_nan /\ x' = S754_nan) \/
  (exists t t', x = S754_zero t /\ x' = S754_zero t').

(** The mantissa given to an integer of at most [prec] binary digits: the
    integer shifted left until it has [prec] digits. *)
Definition aligned (prec : Z) (p : positive) : positive :=
  match (prec - Zpos (digits2_pos p))%Z with
  | Zpos k => Pos.iter xO p k
  | _ => p
  end.

(** A chain of callbacks with their contexts, run in order on one
    spectrum of [n] bins. *)
Definition run_chain (chain : list (frequential_filter_cb * Z)) (n : Z)
  (spectrum : list sample_f) : list sample_f :=
  fold_left (fun sp (entry : frequential_filter_cb * Z) => fst entry sp n (snd entry))
            chain spectrum.

(** What the scan guarantees on any cells at all: [in_] is 0 or the rank
    of a cell of [pre] that is not a NaN. *)
Definition picked (pre : list sample_d) (in_ : Z) : Prop :=
  in_ = 0 \/
  exists k : nat,
    in_ = Z.of_nat k /\ (k < length pre)%nat /\
    is_nan (nth k pre (S754_zero false)) = false.

(** * Properties *)

(** ** Machine arithmetic *)

Lemma to_size_t_small (z : Z) : 0 <= z < 2 ^ 64 -> to_size_t z = z.
Proof. intros H. unfold to_size_t, size_t_modulus. apply Z.mod_small. exact H. Qed.

Lemma to_int_small (z : Z) : - 2 ^ 31 <= z < 2 ^ 31 -> to_int z = z.
Proof.
  intros H. unfold to_int, int_modulus, int_half.
  rewrite Z.mod_small; lia.
Qed.

Lemma shiftl_1_pow2 (k : Z) : 0 <= k -> Z.shiftl (2 ^ k) 1 = 2 ^ (k + 1).
Proof.
  intros Hk. rewrite Z.shiftl_mul_pow2 by lia.
  rewrite Z.pow_add_r by lia. reflexivity.
Qed.

Lemma pow2_lt_mono (a b : Z) : 0 <= a < b -> 2 ^ a < 2 ^ b.
Proof. intros H. apply Z.pow_lt_mono_r; lia. Qed.

Lemma pow2_le_mono (a b : Z) : 0 <= a <= b -> 2 ^ a <= 2 ^ b.
Proof. intros H. apply Z.pow_le_mono_r; lia. Qed.

(** ** The outcome monad *)

Lemma bind_Ret_inv {A B : Type} (m : outcome A) (k : A -> outcome B) (b : B) :
  bind m k = Ret b -> exists a, m = Ret a /\ k a = Ret b.
Proof.
  destruct m as [a| |f]; cbn [bind]; intros H; try discriminate.
  exists a. split; [reflexivity|exact H].
Qed.

Lemma with_setjmp_Ret_inv {A : Type} (j : A) (body : outcome A) (a : A) :
  with_setjmp j body = Ret a -> body = Ret a \/ (body = Longjmp /\ a = j).
Proof.
  destruct body as [x| |f]; cbn [with_setjmp]; intros H; try discriminate.
  - left. exact H.
  - right. split; [reflexivity|]. congruence.
Qed.

(** Splits a hypothesis [x <- m ;; k = Ret b] into its two runs. *)
Tactic Notation "split_bind" hyp(H) "as" ident(a) ident(Ha) :=
  apply bind_Ret_inv in H; destruct H as [a [Ha H]].



(** ** [normalize] *)

(** C1, evaluated.  On 2, -2, 2, -2 (mean 0, standard deviation 2) the code
    divides by 4, the square root of the sum of the squares, and yields halves
    where the standard deviation yields units; on the constant sequence 1.1
    it yields a NaN, the rounded square being below the exact square of the
    mean. *)
Theorem normalize_divides_by_root_of_sum :
  let samples := map float_of_Z [2; -2; 2; -2] in
  normalize_var samples = double_of_Z 4 /\
  standard_deviation samples = double_of_Z 2 /\
  normalize samples = [Run.half; Run.minus_half; Run.half; Run.minus_half] /\
  normalize_by_standard_deviation samples = map float_of_Z [1; -1; 1; -1] /\
  normalize [Run.one_point_one] = [S754_nan].
Proof. vm_compute. repeat split. Qed.

(** ** [get_common_size] *)

(** From a power of two below the bound, with every smaller power of two
    below [n], the loop returns the smallest power of two that reaches [n]. *)
Lemma get_common_size_loop_spec (fuel : nat) :
  forall k n,
    0 <= k <= 63 -> n <= 2 ^ 63 ->
    (k = 0 \/ 2 ^ (k - 1) < n) ->
    64 <= k + Z.of_nat fuel ->
    exists r, get_common_size_loop fuel (2 ^ k) n = Some r /\
              smallest_power_of_two_geq n r.
Proof.
  induction fuel as [|fuel IH]; intros k n Hk Hn Hlow Hfuel.
  - lia.
  - cbn [get_common_size_loop].
    destruct (2 ^ k <? n) eqn:Hlt.
    + apply Z.ltb_lt in Hlt.
      assert (Hk63 : k < 63).
      { destruct (Z.lt_ge_cases k 63) as [?|Hge]; [assumption|].
        assert (2 ^ 63 <= 2 ^ k) by (apply pow2_le_mono; lia). lia. }
      rewrite shiftl_1_pow2 by lia.
      rewrite to_size_t_small.
      2:{ split; [apply Z.pow_nonneg; lia|]. apply pow2_lt_mono; lia. }
      apply IH; try lia.
      right. replace (k + 1 - 1) with k by lia. exact Hlt.
    + apply Z.ltb_ge in Hlt.
      exists (2 ^ k). split; [reflexivity|].
      split; [exists k; split; [lia|reflexivity]|].
      split; [exact Hlt|].
      intros p [j [Hj ->]] Hp.
      destruct Hlow as [->|Hlow].
      * change (2 ^ 0) with 1. pose proof (Z.pow_pos_nonneg 2 j). lia.
      * destruct (Z.lt_ge_cases j k) as [Hjk|Hjk].
        -- assert (2 ^ j <= 2 ^ (k - 1)) by (apply pow2_le_mono; lia). lia.
        -- apply pow2_le_mono; lia.
Qed.

(** Past 2^63 the loop cannot leave: [res] runs through the powers of two
    and then stays 0. *)
Lemma get_common_size_loop_stuck (fuel : nat) :
  forall res n,
    2 ^ 63 < n ->
    (res = 0 \/ exists k, 0 <= k <= 63 /\ res = 2 ^ k) ->
    get_common_size_loop fuel res n = None.
Proof.
  induction fuel as [|fuel IH]; intros res n Hn Hres.
  - cbn [get_common_size_loop].
    assert (Hlt : res < n).
    { destruct Hres as [->|[k [Hk ->]]]; [lia|].
      assert (2 ^ k <= 2 ^ 63) by (apply pow2_le_mono; lia). lia. }
    apply Z.ltb_lt in Hlt. rewrite Hlt. reflexivity.
  - cbn [get_common_size_loop].
    assert (Hlt : res < n).
    { destruct Hres as [->|[k [Hk ->]]]; [lia|].
      assert (2 ^ k <= 2 ^ 63) by (apply pow2_le_mono; lia). lia. }
    apply Z.ltb_lt in Hlt. rewrite Hlt.
    apply IH; [exact Hn|].
    destruct Hres as [->|[k [Hk ->]]].
    + left. reflexivity.
    + destruct (Z.eq_dec k 63) as [->|Hne].
      * left. reflexivity.
      * right. exists (k + 1). split; [lia|].
        rewrite shiftl_1_pow2 by lia.
        apply to_size_t_small.
        split; [apply Z.pow_nonneg; lia|]. apply pow2_lt_mono; lia.
Qed.

Lemma get_common_size_loop_bound (fuel : nat) :
  forall res m r,
    0 <= res -> (res = 0 -> 0 < m) ->
    get_common_size_loop fuel res m = Some r -> m <= r /\ 0 < r.
Proof.
  induction fuel as [|fuel IH]; intros res m r Hres Hzero; cbn [get_common_size_loop];
    destruct (res <? m) eqn:Hlt; intros H; try discriminate.
  - injection H as <-. apply Z.ltb_ge in Hlt. lia.
  - apply Z.ltb_lt in Hlt. apply IH in H; [exact H| |lia].
    unfold to_size_t, size_t_modulus. apply Z.mod_pos_bound. lia.
  - injection H as <-. apply Z.ltb_ge in Hlt. lia.
Qed.

Lemma get_common_size_bound (m r : Z) :
  get_common_size m = Some r -> m <= r /\ 0 < r.
Proof.
  unfold get_common_size. apply get_common_size_loop_bound; lia.
Qed.

Lemma get_common_size_loop_pow2 (fuel : nat) :
  forall res m r,
    (res = 0 \/ exists k, 0 <= k <= 63 /\ res = 2 ^ k) ->
    get_common_size_loop fuel res m = Some r ->
    r = 0 \/ exists k, 0 <= k <= 63 /\ r = 2 ^ k.
Proof.
  induction fuel as [|fuel IH]; intros res m r Hres; cbn [get_common_size_loop];
    destruct (res <? m); intros H; try discriminate.
  - injection H as <-. exact Hres.
  - apply IH in H; [exact H|].
    destruct Hres as [->|[k [Hk ->]]]; [left; reflexivity|].
    destruct (Z.eq_dec k 63) as [->|Hne]; [left; reflexivity|].
    right. exists (k + 1). split; [lia|].
    rewrite shiftl_1_pow2 by lia. apply to_size_t_small.
    split; [apply Z.pow_nonneg; lia|apply pow2_lt_mono; lia].
  - injection H as <-. exact Hres.
Qed.

Lemma get_common_size_pow2 (m r : Z) :
  get_common_size m = Some r -> exists k, 0 <= k <= 63 /\ r = 2 ^ k.
Proof.
  intros H. pose proof (get_common_size_bound m r H) as [_ Hpos].
  unfold get_common_size in H. apply get_common_size_loop_pow2 in H.
  - destruct H as [->|H]; [lia|exact H].
  - right. exists 0. split; [lia|reflexivity].
Qed.

(** ** A successful query, stage by stage *)

Lemma get_audio_range_success (E : environment) (s s' : shenidam_t_impl)
  (fmt : format) (samples : list raw_value) (rate : double) (r : Z * Z) :
  shenidam_get_audio_range E s fmt samples rate = Ret (SUCCESS, s', Some r) ->
  exists base0 track0 track n cs convolved,
    base s = Some base0 /\ s' = s /\
    convert_to_samples E fmt samples = Ret (Some track0) /\
    prepare_track E s track0 (Z.of_nat (length samples)) rate = Ret (track, n) /\
    padded_size s n = Ret cs /\
    correlate E s base0 track n cs = Ret convolved /\
    locate s convolved n cs = Ret r.
Proof.
  unfold shenidam_get_audio_range. intros H.
  apply with_setjmp_Ret_inv in H. destruct H as [H|[_ H]]; [|discriminate].
  destruct (base s) as [base0|] eqn:Hbase; [|discriminate].
  destruct (fle rate dzero); [discriminate|].
  destruct (Z.of_nat (length samples) =? 0); [discriminate|].
  split_bind H as converted Hconv.
  destruct converted as [track0|]; [|discriminate].
  split_bind H as tn Hprep. destruct tn as [track n].
  split_bind H as cs Hcs.
  split_bind H as convolved Hcorr.
  split_bind H as result Hloc.
  injection H as <- <-.
  exists base0, track0, track, n, cs, convolved.
  repeat split; assumption.
Qed.

(** A query, whatever its outcome, hands the session back as it was. *)
Lemma get_audio_range_keeps_session (E : environment) (s s' : shenidam_t_impl)
  (fmt : format) (samples : list raw_value) (rate : double)
  (st : status) (out : option (Z * Z)) :
  shenidam_get_audio_range E s fmt samples rate = Ret (st, s', out) -> s' = s.
Proof.
  unfold shenidam_get_audio_range. intros H.
  apply with_setjmp_Ret_inv in H. destruct H as [H|[_ H]]; [|congruence].
  destruct (base s); [|congruence].
  destruct (fle rate dzero); [congruence|].
  destruct (Z.of_nat (length samples) =? 0); [congruence|].
  split_bind H as converted Hconv.
  destruct converted as [track0|]; [|congruence].
  split_bind H as tn Hprep. destruct tn as [track n].
  split_bind H as cs Hcs.
  split_bind H as convolved Hcorr.
  split_bind H as result Hloc.
  congruence.
Qed.

Lemma padded_size_get_common_size (s : shenidam_t_impl) (n cs : Z) :
  padded_size s n = Ret cs ->
  get_common_size (to_size_t (n + base_num_samples s)) = Some cs.
Proof.
  unfold padded_size.
  destruct (get_common_size (to_size_t (n + base_num_samples s))) as [c|];
    intros H; [|discriminate].
  injection H as ->. reflexivity.
Qed.

(** The padded length is the length both signals are resized to and both
    transforms are run at. *)
Lemma correlate_at_common_size (E : environment) (s : shenidam_t_impl)
  (base0 track convolved : list sample_d) (n cs : Z) :
  correlate E s base0 track n cs = Ret convolved ->
  exists track' base' spectrum,
    resize E track n cs = Ret track' /\
    resize E base0 (base_num_samples s) cs = Ret base' /\
    convolved = fftwf_c2r E cs spectrum.
Proof.
  unfold correlate. intros H.
  split_bind H as track' Htrack.
  split_bind H as base' Hbase.
  split_bind H as track_f Htf.
  split_bind H as base_f Hbf.
  split_bind H as pair Hfilters. destruct pair as [tf bf].
  unfold ifft in H.
  split_bind H as u1 H1. split_bind H as u2 H2. split_bind H as u3 H3.
  injection H as <-.
  exists track', base'. eexists. repeat split; try eassumption.
Qed.

Lemma locate_inv (s : shenidam_t_impl) (convolved : list sample_d)
  (num_samples common_size p len : Z) :
  locate s convolved num_samples common_size = Ret (p, len) ->
  int_of (rescale (wraparound (peak_search convolved common_size)
                              common_size num_samples) s) = Ret p /\
  size_t_of (rescale num_samples s) = Ret len.
Proof.
  unfold locate. intros H.
  split_bind H as p' Hp. split_bind H as len' Hlen.
  injection H as <- <-. split; assumption.
Qed.

(** C4 (as corrected).  For every [n] with [0 < n <= 2^63],
    [get_common_size n] returns the smallest power of two that is at least
    [n]; and in every successful query the padded correlation length is
    [get_common_size] of the 64-bit sum of the query's working length and
    the base's working length: both signals are resized to it and the inverse
    transform is run at it. *)
Theorem common_size_smallest_power_of_two :
  (forall n, 0 < n <= 2 ^ 63 ->
     exists r, get_common_size n = Some r /\ smallest_power_of_two_geq n r) /\
  (forall E s s' fmt samples rate r,
     shenidam_get_audio_range E s fmt samples rate = Ret (SUCCESS, s', Some r) ->
     exists base0 track0 track n cs convolved,
       base s = Some base0 /\
       convert_to_samples E fmt samples = Ret (Some track0) /\
       prepare_track E s track0 (Z.of_nat (length samples)) rate = Ret (track, n) /\
       get_common_size (to_size_t (n + base_num_samples s)) = Some cs /\
       (exists track' base' spectrum,
          resize E track n cs = Ret track' /\
          resize E base0 (base_num_samples s) cs = Ret base' /\
          convolved = fftwf_c2r E cs spectrum) /\
       locate s convolved n cs = Ret r).
Proof.
  split.
  - intros n Hn. unfold get_common_size.
    change 1 with (2 ^ 0) at 1.
    apply get_common_size_loop_spec; try lia.
  - intros E s s' fmt samples rate r H.
    apply get_audio_range_success in H.
    destruct H as (base0 & track0 & track & n & cs & convolved &
                   Hb & _ & Hc & Hp & Hcs & Hcorr & Hloc).
    exists base0, track0, track, n, cs, convolved.
    repeat split; try assumption.
    + apply padded_size_get_common_size. exact Hcs.
    + eapply correlate_at_common_size. exact Hcorr.
Qed.

Lemma common_size_smallest_power_of_two_witness :
  (exists r, get_common_size 5 = Some r /\ smallest_power_of_two_geq 5 r) /\
  (exists base0 track0 track n cs convolved,
      base Run.ready = Some base0 /\
      convert_to_samples (Run.env Run.always) FORMAT_INT Run.early_query
        = Ret (Some track0) /\
      prepare_track (Run.env Run.always) Run.ready track0
                    (Z.of_nat (length Run.early_query)) (double_of_Z 48000)
        = Ret (track, n) /\
      get_common_size (to_size_t (n + base_num_samples Run.ready)) = Some cs /\
      (exists track' base' spectrum,
          resize (Run.env Run.always) track n cs = Ret track' /\
          resize (Run.env Run.always) base0 (base_num_samples Run.ready) cs = Ret base' /\
          convolved = fftwf_c2r (Run.env Run.always) cs spectrum) /\
      locate Run.ready convolved n cs = Ret (-1, 4)).
Proof.
  split.
  - apply (proj1 common_size_smallest_power_of_two 5). lia.
  - apply (proj2 common_size_smallest_power_of_two (Run.env Run.always) Run.ready
             Run.ready FORMAT_INT Run.early_query (double_of_Z 48000) (-1, 4)).
    vm_compute. reflexivity.
Defined.

(** C4, counterexample.  At 2^63 + 1 the loop of [get_common_size] is never
    left: no amount of fuel yields a result. *)
Lemma common_size_never_returns_past_2_63 :
  get_common_size (2 ^ 63 + 1) = None /\
  ~ (exists fuel r, get_common_size_loop fuel 1 (2 ^ 63 + 1) = Some r).
Proof.
  assert (H : forall fuel, get_common_size_loop fuel 1 (2 ^ 63 + 1) = None).
  { intros fuel. apply get_common_size_loop_stuck; [lia|].
    right. exists 0. split; [lia|reflexivity]. }
  split; [apply H|].
  intros (fuel & r & Hr). rewrite H in Hr. discriminate.
Qed.

(** ** Order on the samples *)

Lemma float_of_double_valid (x : sample_d) :
  valid_binary prec32 emax32 x = true -> float_of_double x = x.
Proof.
  destruct x as [s|s| |s m e]; try reflexivity.
  cbn [valid_binary float_of_double]. unfold bounded, canonical_mantissa.
  intros H. apply andb_prop in H. destruct H as [Hc He].
  apply Z.eqb_eq in Hc.
  assert (R : binary_round prec32 emax32 s m e = S754_finite s m e).
  { unfold binary_round, shl_align. rewrite Hc, Z.sub_diag.
    unfold binary_round_aux, shr_fexp. cbn [Zdigits2 shr_record_of_loc].
    rewrite Hc, Z.sub_diag.
    cbn [shr shr_m loc_of_shr_record round_nearest_even Zdigits2].
    rewrite Hc, Z.sub_diag. cbn [shr shr_m]. rewrite He. reflexivity. }
  destruct s; cbn [cond_Zopp Z.opp binary_normalize]; exact R.
Qed.

Lemma minus_infinity_is_start : float_of_double (SFopp DBL_MAX) = minus_infinity.
Proof. reflexivity. Qed.

(** Case analysis on every comparison of exponents and mantissas in sight. *)
Ltac cmp_cases :=
  repeat match goal with
  | H : context [Z.compare ?a ?b] |- _ => destruct (Z.compare_spec a b)
  | |- context [Z.compare ?a ?b] => destruct (Z.compare_spec a b)
  | H : context [Pos.compare_cont Eq ?a ?b] |- _ =>
      change (Pos.compare_cont Eq a b) with (Pos.compare a b) in H;
      destruct (Pos.compare_spec a b)
  | |- context [Pos.compare_cont Eq ?a ?b] =>
      change (Pos.compare_cont Eq a b) with (Pos.compare a b);
      destruct (Pos.compare_spec a b)
  end.

Lemma flt_irrefl (x : spec_float) : flt x x = false.
Proof.
  unfold flt, SFltb, SFcompare.
  destruct x as [s|s| |s m e]; try destruct s; try reflexivity;
    rewrite Z.compare_refl;
    change (Pos.compare_cont Eq m m) with (Pos.compare m m);
    rewrite Pos.compare_refl; reflexivity.
Qed.

(** If [x] does not exceed [m] and [c] exceeds [m], then [c] exceeds [x]. *)
Lemma flt_below (x m c : spec_float) :
  is_nan x = false -> flt m x = false -> flt m c = true -> flt x c = true.
Proof.
  unfold flt, SFltb, SFcompare.
  destruct x as [sx|sx| |sx mx ex], m as [sm|sm| |sm mm em], c as [sc|sc| |sc mc ec];
    cbn [is_nan]; intros Hn; try discriminate Hn;
    try destruct sx; try destruct sm; try destruct sc; cbn;
    intros H1 H2; try discriminate; try reflexivity.
  all: cmp_cases; cbn in *; try discriminate; try reflexivity; try lia.
Qed.

Lemma flt_asym (x y : spec_float) : flt x y = true -> flt y x = false.
Proof.
  unfold flt, SFltb, SFcompare.
  destruct x as [sx|sx| |sx mx ex], y as [sy|sy| |sy my ey];
    try destruct sx; try destruct sy; cbn;
    intros H; try discriminate; try reflexivity.
  all: cmp_cases; cbn in *; try discriminate; try reflexivity; try lia.
Qed.

Lemma flt_minus_infinity (c : spec_float) :
  is_nan c = false -> flt minus_infinity c = false -> c = minus_infinity.
Proof.
  unfold flt, SFltb, SFcompare, minus_infinity.
  destruct c as [s|s| |s m e]; try destruct s; cbn; intros Hn H;
    try discriminate; reflexivity.
Qed.

Lemma is_sample_valid (x : sample_d) :
  is_sample x = true -> valid_binary prec32 emax32 x = true /\ is_nan x = false.
Proof.
  unfold is_sample. intros H. apply andb_prop in H. destruct H as [Hv Hn].
  split; [exact Hv|]. destruct (is_nan x); [discriminate|reflexivity].
Qed.

(** ** The peak scan *)

(** One more cell keeps the invariant of the scan. *)
Lemma peak_inv_step (pre : list sample_d) (c maxv : sample_d) (in_ : Z) :
  Forall (fun x => is_sample x = true) (pre ++ [c]) ->
  Z.of_nat (length pre) < 2 ^ 31 ->
  peak_inv pre maxv in_ ->
  if fgt (double_of_float c) (double_of_float maxv)
  then peak_inv (pre ++ [c]) (float_of_double (double_of_float c))
                (to_int (Z.of_nat (length pre)))
  else peak_inv (pre ++ [c]) maxv in_.
Proof.
  intros Hall Hlen Hinv.
  rewrite Forall_app in Hall. destruct Hall as [Hpre Hc].
  apply Forall_inv in Hc. apply is_sample_valid in Hc. destruct Hc as [Hcv Hcn].
  rewrite Forall_forall in Hpre.
  unfold fgt, double_of_float. fold (flt maxv c).
  destruct (flt maxv c) eqn:Hgt.
  - (* the cell becomes the maximum *)
    rewrite float_of_double_valid by exact Hcv.
    rewrite to_int_small by lia.
    right. exists (length pre). split; [reflexivity|].
    split; [rewrite length_app; cbn; lia|].
    split; [apply nth_middle|].
    split.
    + intros x Hx. apply in_app_or in Hx. destruct Hx as [Hx|[<-|[]]].
      * destruct Hinv as [[-> _]|(k & _ & _ & _ & Hmax & _)]; [destruct Hx|].
        apply flt_asym. apply flt_below with (m := maxv); try assumption.
        -- apply Hpre in Hx. apply is_sample_valid in Hx. apply Hx.
        -- apply Hmax. exact Hx.
      * apply flt_irrefl.
    + intros j Hj. rewrite app_nth1 by exact Hj.
      destruct Hinv as [[-> _]|(k & _ & _ & _ & Hmax & _)]; [cbn in Hj; lia|].
      assert (Hin : In (nth j pre (S754_zero false)) pre) by (apply nth_In; exact Hj).
      apply flt_below with (m := maxv); try assumption.
      * apply Hpre in Hin. apply is_sample_valid in Hin. apply Hin.
      * apply Hmax. exact Hin.
  - (* the maximum stays *)
    right. destruct Hinv as [(-> & -> & ->)|(k & Hk & Hlt & Hnth & Hmax & Hfirst)].
    + exists 0%nat. apply flt_minus_infinity in Hgt; [|exact Hcn]. subst c.
      cbn. repeat split; try lia.
      * intros x [<-|[]]. reflexivity.
    + exists k. split; [exact Hk|].
      split; [rewrite length_app; cbn; lia|].
      split; [rewrite app_nth1 by exact Hlt; exact Hnth|].
      split.
      * intros x Hx. apply in_app_or in Hx. destruct Hx as [Hx|[<-|[]]].
        -- apply Hmax. exact Hx.
        -- exact Hgt.
      * intros j Hj. rewrite app_nth1 by lia. apply Hfirst. exact Hj.
Qed.

Lemma peak_loop_inv (rest : list sample_d) :
  forall pre maxv in_,
    Forall (fun x => is_sample x = true) (pre ++ rest) ->
    Z.of_nat (length pre + length rest) <= 2 ^ 31 ->
    peak_inv pre maxv in_ ->
    exists maxv',
      peak_inv (pre ++ rest) maxv' (peak_loop rest (Z.of_nat (length pre)) maxv in_).
Proof.
  induction rest as [|c rest IH]; intros pre maxv in_ Hall Hlen Hinv.
  - rewrite app_nil_r. exists maxv. exact Hinv.
  - assert (Hstep := peak_inv_step pre c maxv in_).
    replace (pre ++ c :: rest) with ((pre ++ [c]) ++ rest) in *
      by (rewrite <- app_assoc; reflexivity).
    assert (Hpc : Forall (fun x => is_sample x = true) (pre ++ [c])).
    { rewrite Forall_app in Hall. apply Hall. }
    cbn [length] in Hlen.
    specialize (Hstep Hpc ltac:(lia) Hinv).
    cbn [peak_loop].
    replace (Z.of_nat (length pre) + 1) with (Z.of_nat (length (pre ++ [c])))
      by (rewrite length_app; cbn; lia).
    destruct (fgt (double_of_float c) (double_of_float maxv)).
    + apply IH; [exact Hall| rewrite length_app; cbn; lia | exact Hstep].
    + apply IH; [exact Hall| rewrite length_app; cbn; lia | exact Hstep].
Qed.

(** On equal cells the scan keeps rank 0, whatever the count. *)
Lemma peak_loop_constant (c : sample_d) (k : nat) :
  forall i maxv in_,
    flt maxv c = false ->
    peak_loop (repeat c k) i maxv in_ = in_.
Proof.
  induction k as [|k IH]; intros i maxv in_ H; [reflexivity|].
  cbn [repeat peak_loop]. unfold fgt, double_of_float. fold (flt maxv c).
  rewrite H. apply IH. exact H.
Qed.

Lemma firstn_repeat {A : Type} (a : A) (n k : nat) :
  firstn n (repeat a k) = repeat a (Nat.min n k).
Proof.
  revert k. induction n as [|n IH]; intros [|k]; cbn; try reflexivity.
  rewrite IH. reflexivity.
Qed.

Lemma peak_search_constant (c : sample_d) (k : nat) (common_size : Z) :
  valid_binary prec32 emax32 c = true ->
  peak_search (repeat c k) common_size = 0.
Proof.
  intros Hv. unfold peak_search. rewrite firstn_repeat, minus_infinity_is_start.
  destruct (Nat.min (Z.to_nat common_size) k) as [|m]; [reflexivity|].
  cbn [repeat peak_loop]. unfold fgt, double_of_float. fold (flt minus_infinity c).
  destruct (flt minus_infinity c) eqn:H.
  - rewrite float_of_double_valid by exact Hv.
    rewrite peak_loop_constant by apply flt_irrefl. reflexivity.
  - apply peak_loop_constant. exact H.
Qed.

(** C3 (as corrected).  For every correlation of [common_size] samples
    (valid binary32 numbers, no NaN) with [0 < common_size <= 2^31], the scan
    returns an index [p] below [common_size] such that no value exceeds the
    value at [p] and every value before [p] is strictly smaller: the first
    index of the maximum.  For every sequence of equal values, of any length,
    the selected index is 0. *)
Theorem peak_search_first_maximum :
  (forall convolved common_size,
      Z.of_nat (length convolved) = common_size ->
      0 < common_size <= 2 ^ 31 ->
      Forall (fun x => is_sample x = true) convolved ->
      let p := peak_search convolved common_size in
      0 <= p < common_size /\
      (forall j, 0 <= j < common_size ->
                 fgt (sample_at convolved j) (sample_at convolved p) = false) /\
      (forall j, 0 <= j < p ->
                 flt (sample_at convolved j) (sample_at convolved p) = true)) /\
  (forall c k common_size,
      valid_binary prec32 emax32 c = true ->
      peak_search (repeat c k) common_size = 0).
Proof.
  split.
  - intros convolved common_size Hlen Hcs Hall p.
    assert (Hfirst : firstn (Z.to_nat common_size) convolved = convolved).
    { apply firstn_all2. lia. }
    assert (Hinv := peak_loop_inv convolved [] minus_infinity 0).
    cbn [app length Nat.add Z.of_nat] in Hinv.
    specialize (Hinv Hall ltac:(lia) ltac:(left; repeat split)).
    destruct Hinv as [maxv Hinv].
    assert (Hp : p = peak_loop convolved 0 minus_infinity 0).
    { unfold p, peak_search. rewrite Hfirst, minus_infinity_is_start. reflexivity. }
    rewrite <- Hp in Hinv.
    destruct Hinv as [(-> & _)|(k & Hk & Hlt & Hnth & Hmax & Hbefore)].
    + cbn in Hlen. lia.
    + unfold sample_at. rewrite Hk, Nat2Z.id, Hnth.
      split; [lia|]. split.
      * intros j Hj. unfold fgt. apply Hmax. apply nth_In. lia.
      * intros j Hj. apply Hbefore. lia.
  - intros c k common_size Hv. apply peak_search_constant. exact Hv.
Qed.

Lemma peak_search_first_maximum_witness :
  (let convolved := map float_of_Z [1; 7; -3; 7] in
   let p := peak_search convolved 4 in
   0 <= p < 4 /\
   (forall j, 0 <= j < 4 -> fgt (sample_at convolved j) (sample_at convolved p) = false) /\
   (forall j, 0 <= j < p -> flt (sample_at convolved j) (sample_at convolved p) = true)) /\
  peak_search (repeat (float_of_Z 5) 8) 8 = 0.
Proof.
  split.
  - apply (proj1 peak_search_first_maximum (map float_of_Z [1; 7; -3; 7]) 4).
    + reflexivity.
    + lia.
    + repeat constructor.
  - apply (proj2 peak_search_first_maximum (float_of_Z 5) 8%nat 8). reflexivity.
Defined.

(** The scan on [late_peak]: the counter is stored into the [int]. *)
Lemma peak_loop_skip (c : sample_d) (k : nat) (rest : list sample_d) :
  forall i maxv in_,
    flt maxv c = false ->
    peak_loop (repeat c k ++ rest) i maxv in_ = peak_loop rest (i + Z.of_nat k) maxv in_.
Proof.
  induction k as [|k IH]; intros i maxv in_ H.
  - cbn [repeat app]. rewrite Nat2Z.inj_0, Z.add_0_r. reflexivity.
  - cbn [repeat app peak_loop]. unfold fgt, double_of_float. fold (flt maxv c).
    rewrite H, IH by exact H.
    replace (i + 1 + Z.of_nat k) with (i + Z.of_nat (S k)) by lia. reflexivity.
Qed.

Lemma late_peak_length (k : nat) : Z.of_nat (length (late_peak k)) = Z.of_nat k + 2.
Proof.
  unfold late_peak. cbn [length]. rewrite length_app, repeat_length. cbn [length]. lia.
Qed.

Lemma peak_search_late_peak (k : nat) :
  peak_search (late_peak k) (Z.of_nat k + 2) = to_int (Z.of_nat k + 1).
Proof.
  unfold peak_search.
  rewrite firstn_all2 by (pose proof (late_peak_length k); lia).
  rewrite minus_infinity_is_start. unfold late_peak.
  cbn [peak_loop]. unfold fgt at 1, double_of_float at 1 2.
  change (SFltb minus_infinity (S754_zero false)) with true. cbv iota.
  change (float_of_double (S754_zero false)) with (S754_zero false).
  rewrite peak_loop_skip by reflexivity.
  cbn [peak_loop]. unfold fgt, double_of_float.
  change (SFltb (S754_zero false) (float_of_Z 1)) with true. cbv iota.
  replace (0 + 1 + Z.of_nat k) with (Z.of_nat k + 1) by lia. reflexivity.
Qed.

Lemma many_cells_value : Z.of_nat many_cells = 4294967294.
Proof. unfold many_cells. apply Z2Nat.id. lia. Qed.

Lemma late_peak_last (k : nat) :
  nth (S k) (late_peak k) (S754_zero false) = float_of_Z 1.
Proof.
  unfold late_peak. cbn [nth].
  rewrite app_nth2 by (rewrite repeat_length; lia).
  rewrite repeat_length, Nat.sub_diag. reflexivity.
Qed.

(** C3, counterexample.  A correlation of 2^32 values (a padded length
    [get_common_size] returns) whose maximum is the last one, at index
    2^32 - 1: the scan leaves -1, which is no index. *)
Lemma peak_index_wraps_past_int_max :
  get_common_size 4294967296 = Some 4294967296 /\
  Z.of_nat (length (late_peak many_cells)) = 4294967296 /\
  sample_at (late_peak many_cells) 4294967295 = float_of_Z 1 /\
  peak_search (late_peak many_cells) 4294967296 = -1.
Proof.
  split; [reflexivity|].
  split; [rewrite late_peak_length, many_cells_value; reflexivity|].
  split.
  - unfold sample_at.
    replace (Z.to_nat 4294967295) with (S many_cells)
      by (pose proof many_cells_value; lia).
    apply late_peak_last.
  - replace 4294967296 with (Z.of_nat many_cells + 2)
      by (rewrite many_cells_value; reflexivity).
    rewrite peak_search_late_peak, many_cells_value. reflexivity.
Qed.

(** ** The wraparound correction *)

(** The scan leaves 0 or the rank of a scanned cell. *)
Lemma peak_loop_range (convolved : list sample_d) :
  forall i maxv in_,
    0 <= i -> i + Z.of_nat (length convolved) <= 2 ^ 31 ->
    0 <= in_ -> (in_ = 0 \/ in_ < i) ->
    let p := peak_loop convolved i maxv in_ in
    0 <= p /\ (p = 0 \/ p < i + Z.of_nat (length convolved)).
Proof.
  induction convolved as [|c rest IH]; intros i maxv in_ Hi Hlen Hin Hlt.
  - cbn. split; [exact Hin|]. destruct Hlt; [left; assumption|right; lia].
  - cbn [peak_loop length] in *.
    destruct (fgt (double_of_float c) (double_of_float maxv)).
    + rewrite to_int_small by lia.
      specialize (IH (i + 1) (float_of_double (double_of_float c)) i
                     ltac:(lia) ltac:(lia) Hi ltac:(right; lia)).
      cbn zeta in IH. lia.
    + specialize (IH (i + 1) maxv in_ ltac:(lia) ltac:(lia) Hin
                     ltac:(destruct Hlt; [left; assumption|right; lia])).
      cbn zeta in IH. lia.
Qed.

Lemma peak_search_range (convolved : list sample_d) (common_size : Z) :
  0 < common_size <= 2 ^ 31 ->
  0 <= peak_search convolved common_size < common_size.
Proof.
  intros Hcs. unfold peak_search.
  pose proof (peak_loop_range (firstn (Z.to_nat common_size) convolved) 0
                (float_of_double (SFopp DBL_MAX)) 0) as H.
  assert (Hl : Z.of_nat (length (firstn (Z.to_nat common_size) convolved)) <= common_size).
  { rewrite length_firstn. lia. }
  specialize (H ltac:(lia) ltac:(lia) ltac:(lia) ltac:(left; reflexivity)).
  cbn zeta in H. lia.
Qed.

(** The [int] the scan leaves, whatever the length scanned. *)
Lemma peak_loop_int (convolved : list sample_d) :
  forall i maxv in_,
    - 2 ^ 31 <= in_ < 2 ^ 31 ->
    - 2 ^ 31 <= peak_loop convolved i maxv in_ < 2 ^ 31.
Proof.
  induction convolved as [|c rest IH]; intros i maxv in_ Hin; [exact Hin|].
  cbn [peak_loop]. destruct (fgt (double_of_float c) (double_of_float maxv)).
  - apply IH. unfold to_int, int_modulus, int_half.
    pose proof (Z.mod_pos_bound (i + 2 ^ 31) (2 ^ 32)). lia.
  - apply IH. exact Hin.
Qed.

Lemma peak_search_int (convolved : list sample_d) (common_size : Z) :
  - 2 ^ 31 <= peak_search convolved common_size < 2 ^ 31.
Proof. unfold peak_search. apply peak_loop_int. lia. Qed.

(** In range, the 64-bit comparison and subtraction are the plain ones. *)
Lemma wraparound_in_range (in_ common_size num_samples : Z) :
  0 <= in_ < common_size -> common_size <= 2 ^ 31 ->
  0 <= num_samples <= common_size ->
  wraparound in_ common_size num_samples =
  if in_ >? common_size - num_samples / 2 then in_ - common_size else in_.
Proof.
  intros Hin Hcs Hn. unfold wraparound.
  assert (Hhalf : 0 <= num_samples / 2 <= num_samples).
  { split; [apply Z.div_pos; lia|]. apply Z.div_le_upper_bound; lia. }
  rewrite (to_size_t_small in_) by lia.
  rewrite (to_size_t_small (common_size - num_samples / 2)) by lia.
  destruct (in_ >? common_size - num_samples / 2); [|reflexivity].
  unfold to_size_t, size_t_modulus.
  replace ((in_ - common_size) mod 2 ^ 64) with (in_ - common_size + 2 ^ 64).
  2:{ apply Z.mod_unique_pos with (q := -1); lia. }
  unfold to_int, int_modulus, int_half.
  replace ((in_ - common_size + 2 ^ 64 + 2 ^ 31) mod 2 ^ 32)
    with (in_ - common_size + 2 ^ 31).
  2:{ apply Z.mod_unique_pos with (q := 2 ^ 32); lia. }
  lia.
Qed.

(** Beyond 2^31 the padded length is a multiple of 2^32: the subtraction,
    taken or not, leaves the [int] as it is, and the threshold is out of an
    [int]'s reach. *)
Lemma wraparound_large (in_ k num_samples : Z) :
  - 2 ^ 31 <= in_ < 2 ^ 31 -> 32 <= k <= 63 ->
  0 <= num_samples <= 2 ^ k ->
  wraparound in_ (2 ^ k) num_samples =
  if in_ >? 2 ^ k - num_samples / 2 then in_ - 2 ^ k else in_.
Proof.
  intros Hin Hk Hn.
  assert (Hhalf : 0 <= num_samples / 2 /\ 2 * (num_samples / 2) <= num_samples).
  { split; [apply Z.div_pos; lia|]. apply Z.mul_div_le. lia. }
  assert (H32 : 2 ^ 32 <= 2 ^ k) by (apply pow2_le_mono; lia).
  assert (H63 : 2 ^ k <= 2 ^ 63) by (apply pow2_le_mono; lia).
  assert (Hsplit : 2 ^ k = 2 ^ 32 * 2 ^ (k - 32)).
  { rewrite <- Z.pow_add_r by lia. f_equal. lia. }
  assert (Hq : 1 <= 2 ^ (k - 32)) by (pose proof (Z.pow_pos_nonneg 2 (k - 32)); lia).
  destruct (in_ >? 2 ^ k - num_samples / 2) eqn:Hgt; [apply Z.gtb_lt in Hgt; lia|].
  unfold wraparound.
  rewrite (to_size_t_small (2 ^ k - num_samples / 2)) by lia.
  destruct (Z.lt_ge_cases in_ 0) as [Hneg|Hpos].
  - assert (Hwrap : to_size_t in_ = in_ + 2 ^ 64).
    { unfold to_size_t, size_t_modulus.
      symmetry. apply Z.mod_unique_pos with (q := -1); lia. }
    rewrite Hwrap.
    destruct (in_ + 2 ^ 64 >? 2 ^ k - num_samples / 2) eqn:Hc.
    + rewrite to_size_t_small by lia.
      unfold to_int, int_modulus, int_half.
      replace ((in_ + 2 ^ 64 - 2 ^ k + 2 ^ 31) mod 2 ^ 32) with (in_ + 2 ^ 31); [lia|].
      apply Z.mod_unique_pos with (q := 2 ^ 32 - 2 ^ (k - 32)); lia.
    + rewrite Z.gtb_ltb in Hc. apply Z.ltb_ge in Hc. lia.
  - rewrite (to_size_t_small in_) by lia.
    destruct (in_ >? 2 ^ k - num_samples / 2) eqn:Hc; [|reflexivity].
    apply Z.gtb_lt in Hc. lia.
Qed.

(** The correction on the [int] of the scan, for every padded length
    [get_common_size] can return. *)
Lemma wraparound_after_scan (convolved : list sample_d) (m common_size num_samples : Z) :
  get_common_size m = Some common_size ->
  0 <= num_samples <= common_size ->
  let in_ := peak_search convolved common_size in
  wraparound in_ common_size num_samples =
  if in_ >? common_size - num_samples / 2 then in_ - common_size else in_.
Proof.
  intros Hcs Hn in_.
  pose proof (get_common_size_bound _ _ Hcs) as [_ Hpos].
  destruct (get_common_size_pow2 _ _ Hcs) as [k [Hk ->]].
  destruct (Z.le_gt_cases k 31) as [Hsmall|Hlarge].
  - assert (2 ^ k <= 2 ^ 31) by (apply pow2_le_mono; lia).
    apply wraparound_in_range; try lia.
    apply peak_search_range. lia.
  - apply wraparound_large; try lia. apply peak_search_int.
Qed.

Lemma resample_count_nonneg (E : environment) (x out : list sample_d) (ratio : double)
  (asked n : Z) :
  resample E x ratio asked = Ret (out, n) -> 0 <= n.
Proof.
  unfold resample. intros H. split_bind H as u Hu. injection H as _ <-. lia.
Qed.

Lemma fold_to_size_t_nonneg (l : list Z) :
  forall acc, 0 <= acc -> 0 <= fold_left (fun a size => to_size_t (a + size)) l acc.
Proof.
  induction l as [|x l IH]; intros acc H; cbn [fold_left]; [exact H|].
  apply IH. unfold to_size_t, size_t_modulus. apply Z.mod_pos_bound. lia.
Qed.

Lemma resample_parallel_count_nonneg (E : environment) (x out : list sample_d)
  (ratio : double) (asked n : Z) :
  resample_parallel E x ratio asked = Ret (out, n) -> 0 <= n.
Proof.
  unfold resample_parallel.
  destruct (negb (SHENIDAM_PARALLEL_OMP E)); [apply resample_count_nonneg|].
  destruct (omp_get_num_threads E =? 1); [apply resample_count_nonneg|].
  unfold resample_chunked. intros H.
  split_bind H as u1 H1. split_bind H as u2 H2. split_bind H as u3 H3.
  split_bind H as outs Houts. split_bind H as u4 H4.
  split_bind H as copied Hcopied.
  injection H as _ <-. apply fold_to_size_t_nonneg. lia.
Qed.

Lemma prepare_track_count_nonneg (E : environment) (s : shenidam_t_impl)
  (track0 track : list sample_d) (num_samples n : Z) (rate : double) :
  0 <= num_samples ->
  prepare_track E s track0 num_samples rate = Ret (track, n) -> 0 <= n.
Proof.
  intros Hn. unfold prepare_track.
  destruct (fne (ddiv (base_sample_rate s) rate) (double_of_Z 1)).
  - intros H. split_bind H as asked Hasked.
    eapply resample_parallel_count_nonneg. exact H.
  - intros H. injection H as _ <-. exact Hn.
Qed.

(** C2 (as corrected).  In every successful [shenidam_get_audio_range] call
    whose padded length [common_size] is at most 2^31 (the session's base
    count being a [size_t] and its sum with the query's working length not
    overflowing), the scan over the correlation of length [common_size]
    leaves an index [peak] of it; the correction yields [peak - common_size]
    if [peak > common_size - num_samples / 2] and [peak] otherwise,
    [num_samples] being the query's sample count at the working rate; and
    the offset returned is the rescaled corrected peak.  There is a
    successful call whose offset is negative. *)
Theorem wraparound_correction :
  (forall E s s' fmt samples rate p len base0 track0 track n cs convolved,
      shenidam_get_audio_range E s fmt samples rate = Ret (SUCCESS, s', Some (p, len)) ->
      base s = Some base0 ->
      convert_to_samples E fmt samples = Ret (Some track0) ->
      prepare_track E s track0 (Z.of_nat (length samples)) rate = Ret (track, n) ->
      padded_size s n = Ret cs ->
      correlate E s base0 track n cs = Ret convolved ->
      0 <= base_num_samples s ->
      n + base_num_samples s < 2 ^ 64 ->
      cs <= 2 ^ 31 ->
      let peak := peak_search convolved cs in
      let corrected := if peak >? cs - n / 2 then peak - cs else peak in
      0 <= peak < cs /\
      wraparound peak cs n = corrected /\
      int_of (rescale corrected s) = Ret p) /\
  (exists E s fmt samples rate p len,
      shenidam_get_audio_range E s fmt samples rate = Ret (SUCCESS, s, Some (p, len)) /\
      p < 0).
Proof.
  split.
  - intros E s s' fmt samples rate p len base0 track0 track n cs convolved
           Hrun Hbase Hconv Hprep Hpad Hcorr Hbns Hsum Hsmall peak corrected.
    apply get_audio_range_success in Hrun.
    destruct Hrun as (base0' & track0' & track' & n' & cs' & convolved' &
                      Hb & _ & Hc & Hp & Hcs & Hco & Hloc).
    rewrite Hbase in Hb. injection Hb as <-.
    rewrite Hconv in Hc. injection Hc as <-.
    rewrite Hprep in Hp. injection Hp as <- <-.
    rewrite Hpad in Hcs. injection Hcs as <-.
    rewrite Hcorr in Hco. injection Hco as <-.
    apply locate_inv in Hloc. destruct Hloc as [Hoff _].
    assert (Hn : 0 <= n).
    { eapply prepare_track_count_nonneg; [|exact Hprep]. lia. }
    apply padded_size_get_common_size in Hpad.
    pose proof (get_common_size_bound _ _ Hpad) as [Hle Hpos].
    rewrite to_size_t_small in Hle by lia.
    assert (Hrange : 0 <= peak < cs) by (apply peak_search_range; lia).
    assert (Hw : wraparound peak cs n = corrected).
    { unfold corrected. apply wraparound_in_range; lia. }
    split; [exact Hrange|]. split; [exact Hw|]. rewrite <- Hw. exact Hoff.
  - exists (Run.env Run.always), Run.ready, FORMAT_INT, Run.early_query,
           (double_of_Z 48000), (-1), 4.
    split; [vm_compute; reflexivity|lia].
Qed.

Lemma wraparound_correction_witness :
  let peak := peak_search Run.early_correlation 8 in
  let corrected := if peak >? 8 - 4 / 2 then peak - 8 else peak in
  0 <= peak < 8 /\
  wraparound peak 8 4 = corrected /\
  int_of (rescale corrected Run.ready) = Ret (-1).
Proof.
  apply (proj1 wraparound_correction (Run.env Run.always) Run.ready Run.ready
           FORMAT_INT Run.early_query (double_of_Z 48000) (-1) 4
           Run.ready_base Run.early_track0 Run.early_track 4 8
           Run.early_correlation);
    vm_compute; first [reflexivity | discriminate].
Defined.

Lemma late_peak_before_last (k : nat) (j : Z) :
  0 <= j <= Z.of_nat k -> sample_at (late_peak k) j = S754_zero false.
Proof.
  intros Hj. unfold sample_at, late_peak.
  destruct (Z.to_nat j) as [|i] eqn:Hi; [reflexivity|].
  cbn [nth]. rewrite app_nth1 by (rewrite repeat_length; lia).
  apply nth_repeat.
Qed.

(** C2, counterexample.  A padded length of 2^32 (one [get_common_size]
    returns), a correlation whose maximum is its last value, at index
    2^32 - 1, and a query of 2 samples: the index is not above the threshold
    2^32 - 1, yet what the correction leaves is the index less 2^32. *)
Lemma wraparound_subtracts_at_threshold :
  get_common_size 4294967296 = Some 4294967296 /\
  Z.of_nat (length (late_peak many_cells)) = 4294967296 /\
  sample_at (late_peak many_cells) 4294967295 = float_of_Z 1 /\
  (forall j, 0 <= j < 4294967295 ->
             sample_at (late_peak many_cells) j = S754_zero false) /\
  (4294967295 >? 4294967296 - 2 / 2) = false /\
  wraparound (peak_search (late_peak many_cells) 4294967296) 4294967296 2
  = 4294967295 - 4294967296.
Proof.
  split; [reflexivity|].
  split; [rewrite late_peak_length, many_cells_value; reflexivity|].
  split.
  { unfold sample_at.
    replace (Z.to_nat 4294967295) with (S many_cells)
      by (pose proof many_cells_value; lia).
    apply late_peak_last. }
  split.
  { intros j Hj. apply late_peak_before_last. rewrite many_cells_value. lia. }
  split; [reflexivity|].
  replace 4294967296 with (Z.of_nat many_cells + 2) at 1
    by (rewrite many_cells_value; reflexivity).
  rewrite peak_search_late_peak, many_cells_value. reflexivity.
Qed.

(** ** Whole numbers in floating point

    What [round(n * r / w)] is when the count and the two rates are whole
    numbers: the count times the original rate is exact, the quotient is
    rounded once, and C's [round] then gives an integer nearest to the exact
    quotient. *)

(** Binary digits and shifts to the left. *)
Lemma digits2_pos_iter_xO (p k : positive) :
  Zpos (digits2_pos (Pos.iter xO p k)) = Zpos (digits2_pos p) + Zpos k.
Proof.
  revert p. induction k using Pos.peano_ind; intros p.
  - cbn. lia.
  - rewrite Pos.iter_succ. cbn [digits2_pos]. specialize (IHk p). lia.
Qed.


Lemma digits2_pos_bound (p : positive) :
  forall d, 0 <= d -> Zpos p < 2 ^ d -> Zpos (digits2_pos p) <= d.
Proof.
  induction p as [p IH|p IH|]; intros d Hd Hp; cbn [digits2_pos];
    (assert (0 < d) by (destruct (Z.eq_dec d 0) as [->|]; [cbn in Hp; lia|lia]));
    [| |lia];
    replace d with (Z.succ (d - 1)) in Hp by lia;
    rewrite Z.pow_succ_r in Hp by lia;
    specialize (IH (d - 1) ltac:(lia) ltac:(lia)); lia.
Qed.

(** An integer of at most [prec] digits is a number of the format: it is
    kept, its mantissa shifted left to [prec] digits. *)
Lemma binary_round_integer (prec emax : Z) (s : bool) (p : positive) :
  Zpos (digits2_pos p) <= prec -> 2 <= emax -> prec <= emax ->
  binary_round prec emax s p 0
  = S754_finite s (aligned prec p) (Zpos (digits2_pos p) - prec).
Proof.
  intros Hd Hemax Hprec. unfold binary_round, aligned.
  set (d := Zpos (digits2_pos p)) in *.
  assert (Hpos : 0 < d) by (unfold d; lia).
  assert (Hfexp : fexp prec emax (d + 0) = d - prec) by (unfold fexp, emin; lia).
  rewrite Hfexp. unfold shl_align.
  replace (d - prec - 0) with (- (prec - d)) by lia.
  destruct (prec - d) as [|q|q] eqn:Hq; try lia; cbn [Z.opp].
  - assert (Hd0 : d - prec = 0) by lia.
    unfold binary_round_aux, shr_fexp. cbn [Zdigits2]. fold d.
    rewrite Hfexp, Hd0, Z.sub_0_r.
    cbn [shr_record_of_loc shr shr_m loc_of_shr_record round_nearest_even Zdigits2].
    fold d. rewrite Hfexp, Hd0, Z.sub_0_r. cbn [shr shr_m].
    replace (0 <=? emax - prec) with true by (symmetry; apply Z.leb_le; lia).
    reflexivity.
  - unfold binary_round_aux, shr_fexp. cbn [Zdigits2].
    rewrite digits2_pos_iter_xO. fold d.
    assert (Hf2 : fexp prec emax (d + Zpos q + (d - prec)) - (d - prec) = 0)
      by (unfold fexp, emin; lia).
    rewrite Hf2.
    cbn [shr_record_of_loc shr shr_m loc_of_shr_record round_nearest_even Zdigits2].
    rewrite digits2_pos_iter_xO. fold d. rewrite Hf2. cbn [shr shr_m].
    replace (d - prec <=? emax - prec) with true by (symmetry; apply Z.leb_le; lia).
    reflexivity.
Qed.




















(** ** Rescaling to the original rate *)

Lemma set_base_audio_success_inv (E : environment) (s s' : shenidam_t_impl)
  (fmt : format) (samples : list raw_value) (rate : double) :
  shenidam_set_base_audio E s fmt samples rate = Ret (SUCCESS, s') ->
  base s = None /\
  exists buffer count,
    s' = {| base_sample_rate := base_sample_rate s;
            base_real_sample_rate := rate;
            base := Some buffer;
            base_num_samples := count;
            frequential_filters := frequential_filters s;
            frequential_filter_data := frequential_filter_data s;
            num_threads := num_threads s |}.
Proof.
  unfold shenidam_set_base_audio. intros H.
  apply with_setjmp_Ret_inv in H. destruct H as [H|[_ H]]; [|discriminate].
  destruct (base s); [discriminate|]. split; [reflexivity|].
  split_bind H as converted Hconv.
  destruct converted as [base0|]; [|discriminate].
  split_bind H as asked Hasked.
  split_bind H as out Hout. destruct out as [temp count].
  injection H as <-. exists temp, count. reflexivity.
Qed.



(** Counts beyond the precision of a [double] are themselves rounded before
    they are rescaled: at equal rates a count of 2^54 + 2 comes back as 2^54.
    The bound on the count is for that. *)
Lemma rescale_rounds_large_counts :
  rescale (2 ^ 54 + 2) Run.ready = Some (2 ^ 54).
Proof. vm_compute. reflexivity. Qed.

(** With rates that are not whole numbers the rounding of the quotient can
    tip C's [round]: original rate 1, working rate 2 - 2^-27 + 2^-52 (less
    than twice the original rate) and a count of 2^28 give the length
    2^27 + 1, which is 2^28 + 1 + 2^-25 - 2^-27 + 2^-52 back at the working
    rate.  The statement on whole-number rates is for that. *)
Lemma rescale_with_fractional_rate (s : shenidam_t_impl) :
  base_real_sample_rate s = double_of_Z 1 ->
  base_sample_rate s = S754_finite false 9007199221186561 (-52) ->
  rescale (2 ^ 28) s = Some (2 ^ 27 + 1) /\
  (2 ^ 27 + 1) * 9007199221186561 - 2 ^ 28 * 2 ^ 52 > 1 * 2 ^ 52.
Proof.
  intros HR HW. unfold rescale. rewrite HR, HW.
  split; [vm_compute; reflexivity|lia].
Qed.


(** ** [shenidam_set_base_audio] *)

Lemma fresh_is_created (rate : Z) :
  shenidam_create (Run.env Run.always) (double_of_Z rate) 1 4096 S754_nan 0
  = Ret (Run.fresh rate).
Proof. reflexivity. Qed.

(** Once the base pointer is set, the first test of the function answers. *)
Lemma set_base_audio_committed (E : environment) (s : shenidam_t_impl)
  (fmt : format) (samples : list raw_value) (rate : double) :
  base s <> None ->
  shenidam_set_base_audio E s fmt samples rate = Ret (ALREADY_SET_BASE_SIGNAL, s).
Proof.
  intros Hbase. unfold shenidam_set_base_audio.
  destruct (base s); [reflexivity|congruence].
Qed.

(** C7.  On a session on which [shenidam_set_base_audio] has succeeded,
    every further call, whatever its arguments, returns
    [ALREADY_SET_BASE_SIGNAL] and leaves the session as it is: base buffer,
    base count, both rates and every other field. *)
Theorem set_base_audio_only_once (E : environment) (s s' : shenidam_t_impl)
  (fmt : format) (samples : list raw_value) (rate : double) :
  shenidam_set_base_audio E s fmt samples rate = Ret (SUCCESS, s') ->
  forall fmt' samples' rate',
    shenidam_set_base_audio E s' fmt' samples' rate' = Ret (ALREADY_SET_BASE_SIGNAL, s').
Proof.
  intros H fmt' samples' rate'.
  apply set_base_audio_committed.
  apply set_base_audio_success_inv in H.
  destruct H as [_ (buffer & count & ->)].
  discriminate.
Qed.

Lemma set_base_audio_only_once_witness :
  shenidam_set_base_audio (Run.env Run.always) Run.ready FORMAT_DOUBLE
    [RawDouble (double_of_Z 7)] (double_of_Z 8000)
  = Ret (ALREADY_SET_BASE_SIGNAL, Run.ready).
Proof.
  apply (set_base_audio_only_once (Run.env Run.always) (Run.fresh 48000) Run.ready
           FORMAT_INT (map RawInteger [3; -2; 1; -1]) (double_of_Z 48000)).
  vm_compute. reflexivity.
Defined.

(** The only way to [INVALID_ARGUMENT] is an unsupported format tag: the
    sample rate is never examined. *)
Lemma set_base_audio_invalid_argument_inv (E : environment) (s s' : shenidam_t_impl)
  (fmt : format) (samples : list raw_value) (rate : double) :
  shenidam_set_base_audio E s fmt samples rate = Ret (INVALID_ARGUMENT, s') ->
  exists tag, fmt = FORMAT_OTHER tag.
Proof.
  unfold shenidam_set_base_audio. intros H.
  apply with_setjmp_Ret_inv in H. destruct H as [H|[_ H]]; [|discriminate].
  destruct (base s); [discriminate|].
  split_bind H as converted Hconv.
  destruct converted as [base0|].
  - split_bind H as asked Hasked.
    split_bind H as out Hout. destruct out as [temp count]. discriminate.
  - unfold convert_to_samples in Hconv. split_bind Hconv as u Hu.
    destruct fmt; try discriminate. eexists. reflexivity.
Qed.

(** C6, evaluated.  A fresh session at 48000 Hz, one [float] sample and the
    sample rate -2^40: the call does not return [INVALID_ARGUMENT]; it
    succeeds, commits a base buffer and records the negative rate.  Likewise
    a session created at -48000 Hz and four samples at the rate -48000: the
    ratio is 1 and the call commits the four normalized samples. *)
Theorem set_base_audio_accepts_negative_rate :
  (exists s',
      shenidam_set_base_audio (Run.env Run.always) (Run.fresh 48000) FORMAT_SINGLE
        [Run.single 1] (double_of_Z (- 2 ^ 40)) = Ret (SUCCESS, s') /\
      fle (double_of_Z (- 2 ^ 40)) dzero = true /\
      base s' = Some [] /\
      base_real_sample_rate s' = double_of_Z (- 2 ^ 40)) /\
  (exists s',
      shenidam_set_base_audio (Run.env Run.always) (Run.fresh (-48000)) FORMAT_INT
        (map RawInteger [3; -2; 1; -1]) (double_of_Z (-48000)) = Ret (SUCCESS, s') /\
      fle (double_of_Z (-48000)) dzero = true /\
      base s' = Some Run.ready_base /\
      base_num_samples s' = 4 /\
      base_real_sample_rate s' = double_of_Z (-48000)).
Proof. split; eexists; vm_compute; repeat split. Qed.

(** ** Early returns of [shenidam_get_audio_range] *)

(** C8 (as corrected).  Without a committed base the call returns
    [BASE_SIGNAL_NOT_SET]; with one, a sample rate that compares [<= 0] or an
    empty query returns [INVALID_ARGUMENT]; otherwise an unsupported format
    tag returns [INVALID_ARGUMENT] when the conversion buffer could be
    allocated and [ALLOCATION_ERROR] when it could not.  In each case the
    session is unchanged and nothing is written to the outputs. *)
Theorem get_audio_range_early_returns (E : environment) (s : shenidam_t_impl)
  (fmt : format) (samples : list raw_value) (rate : double) :
  (base s = None ->
   shenidam_get_audio_range E s fmt samples rate = Ret (BASE_SIGNAL_NOT_SET, s, None)) /\
  (base s <> None -> fle rate dzero = true \/ samples = [] ->
   shenidam_get_audio_range E s fmt samples rate = Ret (INVALID_ARGUMENT, s, None)) /\
  (base s <> None -> fle rate dzero = false -> samples <> [] ->
   forall tag, fmt = FORMAT_OTHER tag ->
   shenidam_get_audio_range E s fmt samples rate =
   if malloc_ok E (to_size_t (sizeof_sample_d * Z.of_nat (length samples)))
   then Ret (INVALID_ARGUMENT, s, None)
   else Ret (ALLOCATION_ERROR, s, None)).
Proof.
  unfold shenidam_get_audio_range.
  split; [|split].
  - intros ->. reflexivity.
  - intros Hbase Hbad. destruct (base s); [|congruence].
    destruct (fle rate dzero); [reflexivity|].
    destruct Hbad as [Hbad| ->]; [discriminate|reflexivity].
  - intros Hbase Hrate Hsamples tag ->. destruct (base s); [|congruence].
    rewrite Hrate.
    destruct samples as [|x samples]; [congruence|].
    cbn [length]. rewrite Nat2Z.inj_succ.
    replace (Z.succ (Z.of_nat (length samples)) =? 0) with false
      by (symmetry; apply Z.eqb_neq; lia).
    unfold convert_to_samples, ehmalloc. cbn [length]. rewrite Nat2Z.inj_succ.
    destruct (malloc_ok E _); reflexivity.
Qed.

Lemma get_audio_range_early_returns_witness :
  shenidam_get_audio_range (Run.env Run.always) (Run.fresh 48000) FORMAT_INT
    Run.early_query (double_of_Z 48000)
    = Ret (BASE_SIGNAL_NOT_SET, Run.fresh 48000, None) /\
  shenidam_get_audio_range (Run.env Run.always) Run.ready FORMAT_INT
    Run.early_query (double_of_Z 0)
    = Ret (INVALID_ARGUMENT, Run.ready, None) /\
  shenidam_get_audio_range (Run.env Run.always) Run.ready (FORMAT_OTHER 99)
    Run.early_query (double_of_Z 48000)
    = Ret (INVALID_ARGUMENT, Run.ready, None).
Proof.
  split; [|split].
  - apply (proj1 (get_audio_range_early_returns (Run.env Run.always) (Run.fresh 48000)
                    FORMAT_INT Run.early_query (double_of_Z 48000))).
    reflexivity.
  - apply (proj1 (proj2 (get_audio_range_early_returns (Run.env Run.always) Run.ready
                           FORMAT_INT Run.early_query (double_of_Z 0)))).
    + discriminate.
    + left. reflexivity.
  - apply (proj2 (proj2 (get_audio_range_early_returns (Run.env Run.always) Run.ready
                           (FORMAT_OTHER 99) Run.early_query (double_of_Z 48000)))
             ltac:(discriminate) ltac:(reflexivity) ltac:(discriminate) 99 eq_refl).
Defined.

(** C8, counterexample.  A committed session, a positive rate, a query of
    four samples, the unsupported tag 99 and an exhausted allocator: the call
    returns [ALLOCATION_ERROR], not [INVALID_ARGUMENT]. *)
Lemma unsupported_format_after_allocation :
  shenidam_get_audio_range (Run.env Run.never) Run.ready (FORMAT_OTHER 99)
    Run.early_query (double_of_Z 48000)
  = Ret (ALLOCATION_ERROR, Run.ready, None).
Proof. vm_compute. reflexivity. Qed.

(** ** [shenidam_add_frequential_filter] *)

(** The walk tests the pointer, never the cell: from a non-null pointer it
    does not come back with a count. *)
Lemma filter_walk_faults (fuel : nat) :
  forall start len cur n, 0 < cur -> exists f, filter_walk fuel start len cur n = Fault f.
Proof.
  induction fuel as [|fuel IH]; intros start len cur n Hcur; cbn [filter_walk];
    (replace (cur =? 0) with false by (symmetry; apply Z.eqb_neq; lia)).
  - eexists. reflexivity.
  - destruct (cur + sizeof_pointer <=? start + sizeof_pointer * len).
    + apply IH. unfold sizeof_pointer. lia.
    + eexists. reflexivity.
Qed.

Lemma add_frequential_filter_never_appends (E : environment) (s : shenidam_t_impl)
  (cb : frequential_filter_cb) (data : Z) :
  0 < table_address (frequential_filters s) ->
  exists f, shenidam_add_frequential_filter E s (Some cb) data = Fault f.
Proof.
  intros Haddr. unfold shenidam_add_frequential_filter.
  destruct (filter_walk_faults (S (length (table_cells (frequential_filters s))))
              (table_address (frequential_filters s))
              (Z.of_nat (length (table_cells (frequential_filters s))))
              (table_address (frequential_filters s)) 0 Haddr) as [f Hf].
  rewrite Hf. exists f. reflexivity.
Qed.

(** C10, evaluated.  With a null callback the call returns
    [INVALID_ARGUMENT] and the session is unchanged.  With a callback, on a
    session as [shenidam_create] leaves it, the counting loop steps the
    pointer past the end of the table: nothing is appended. *)
Theorem add_frequential_filter_counts_by_pointer :
  (forall E s data,
      shenidam_add_frequential_filter E s None data = Ret (INVALID_ARGUMENT, s)) /\
  (forall cb data,
      shenidam_add_frequential_filter (Run.env Run.always) (Run.fresh 48000)
        (Some cb) data = Fault UndefinedBehaviour).
Proof.
  split.
  - intros E s data. reflexivity.
  - intros cb data. reflexivity.
Qed.

(** ** [resample_parallel] *)

(** What is right in the chunked branch: the slices of lines 256-262 are
    contiguous, disjoint and cover the input, the last one taking the
    remainder. *)
Lemma slices_before (l : list sample_d) (q : nat) :
  forall k,
    concat (map (fun j => firstn q (skipn (j * q) l)) (seq 0 k)) ++ skipn (k * q) l = l.
Proof.
  induction k as [|k IH]; [reflexivity|].
  rewrite seq_S, map_app, concat_app. cbn [map concat Nat.add].
  rewrite app_nil_r, <- app_assoc.
  replace (S k * q)%nat with (q + k * q)%nat by lia.
  rewrite <- skipn_skipn, firstn_skipn. exact IH.
Qed.

Lemma slices_partition (samples : list sample_d) (threads : Z) :
  1 <= threads ->
  let n := Z.of_nat (length samples) in
  concat (map (fun i => slice samples (slice_start n threads i)
                              (current_slice_size n threads i))
              (thread_ids threads)) = samples.
Proof.
  intros Hthreads n.
  set (q := Z.to_nat (n / threads)).
  set (k := (Z.to_nat threads - 1)%nat).
  assert (Hq : n / threads = Z.of_nat q).
  { unfold q. rewrite Z2Nat.id; [reflexivity|]. apply Z.div_pos; lia. }
  assert (Hfit : (k * q <= length samples)%nat).
  { assert (threads * (n / threads) <= n) by (apply Z.mul_div_le; lia).
    assert (Z.of_nat k * Z.of_nat q <= Z.of_nat (length samples)) by (unfold k; nia).
    nia. }
  unfold thread_ids.
  replace (Z.to_nat threads) with (S k) by (unfold k; lia).
  rewrite seq_S, !map_app, concat_app. cbn [map concat Nat.add].
  rewrite app_nil_r.
  etransitivity; [|apply (slices_before samples q k)].
  f_equal.
  - f_equal. rewrite map_map. apply map_ext_in. intros j Hj.
    apply in_seq in Hj.
    unfold slice, slice_start, current_slice_size.
    replace (Z.of_nat j =? threads - 1) with false
      by (symmetry; apply Z.eqb_neq; unfold k in Hj; lia).
    rewrite Hq, <- Nat2Z.inj_mul, !Nat2Z.id. reflexivity.
  - unfold slice, slice_start, current_slice_size.
    replace (Z.of_nat k =? threads - 1) with true
      by (symmetry; apply Z.eqb_eq; unfold k; lia).
    rewrite Hq, <- Nat2Z.inj_mul, Nat2Z.id.
    apply firstn_all2. rewrite length_skipn. unfold n. lia.
Qed.

(** C5, evaluated.  Two threads, five frames, ratio 1, and a size table
    that happens to hold 2: the chunks are the frames 1, 2 and 3, 4, 5, their
    outputs are 1, 2 and 3, 4, the count returned is 4, and the buffer
    returned holds the bit patterns of the two pointers of the table, not the
    frames.  When the table happens to hold 3 the copy runs past the table. *)
Theorem resample_parallel_copies_pointer_table :
  let samples := map float_of_Z [1; 2; 3; 4; 5] in
  let E := Run.env_omp 2 2 in
  slice samples (slice_start 5 2 0) (current_slice_size 5 2 0) = map float_of_Z [1; 2] /\
  slice samples (slice_start 5 2 1) (current_slice_size 5 2 1) = map float_of_Z [3; 4; 5] /\
  resample E (map float_of_Z [1; 2]) (double_of_Z 1) 2 = Ret (map float_of_Z [1; 2], 2) /\
  resample E (map float_of_Z [3; 4; 5]) (double_of_Z 1) 2 = Ret (map float_of_Z [3; 4], 2) /\
  resample_parallel E samples (double_of_Z 1) 5
    = Ret (pointer_as_samples 4096 ++ pointer_as_samples 8192, 4) /\
  pointer_as_samples 4096 ++ pointer_as_samples 8192 <> map float_of_Z [1; 2; 3; 4] /\
  resample_parallel (Run.env_omp 2 3) samples (double_of_Z 1) 5 = Fault UndefinedBehaviour.
Proof.
  cbv zeta. repeat split; try (vm_compute; reflexivity).
  vm_compute. discriminate.
Qed.

(** * Further properties of the code *)

(** ** [get_common_size] as a padding rule *)

(** X1.  An argument of at most 1 (0 included) gives 1; from 1 to 2^63 the
    result reaches the argument and stays below its double; a result is a
    fixed point; past 2^63 the loop is not left. *)
Theorem get_common_size_padding :
  (forall n, n <= 1 -> get_common_size n = Some 1) /\
  (forall n, 1 <= n <= 2 ^ 63 ->
     exists r, get_common_size n = Some r /\ n <= r < 2 * n) /\
  (forall n r, get_common_size n = Some r -> get_common_size r = Some r) /\
  (forall n, 2 ^ 63 < n -> get_common_size n = None).
Proof.
  assert (Hspec : forall n, 0 < n <= 2 ^ 63 ->
            exists r, get_common_size n = Some r /\ smallest_power_of_two_geq n r).
  { intros n Hn. unfold get_common_size. change 1 with (2 ^ 0) at 1.
    apply get_common_size_loop_spec; lia. }
  split; [|split; [|split]].
  - intros n Hn. unfold get_common_size. cbn [get_common_size_loop].
    replace (1 <? n) with false by (symmetry; apply Z.ltb_ge; lia). reflexivity.
  - intros n Hn. destruct (Hspec n ltac:(lia)) as (r & Hr & [j [Hj ->]] & Hge & Hmin).
    exists (2 ^ j). split; [exact Hr|]. split; [exact Hge|].
    destruct (Z.eq_dec j 0) as [->|Hj0]; [change (2 ^ 0) with 1; lia|].
    assert (Hhalf : 2 ^ j = 2 * 2 ^ (j - 1)).
    { rewrite <- Z.pow_succ_r by lia. f_equal. lia. }
    destruct (Z.lt_ge_cases (2 ^ (j - 1)) n) as [Hlt|Hle]; [lia|].
    specialize (Hmin (2 ^ (j - 1)) ltac:(exists (j - 1); split; [lia|reflexivity]) Hle).
    pose proof (Z.pow_pos_nonneg 2 (j - 1)). lia.
  - intros n r Hr.
    destruct (get_common_size_pow2 _ _ Hr) as [k [Hk ->]].
    assert (Hle : 2 ^ k <= 2 ^ 63) by (apply pow2_le_mono; lia).
    pose proof (Z.pow_pos_nonneg 2 k ltac:(lia) ltac:(lia)) as Hpos.
    destruct (Hspec (2 ^ k) ltac:(lia)) as (r' & Hr' & _ & Hge & Hmin).
    specialize (Hmin (2 ^ k) ltac:(exists k; split; [lia|reflexivity]) ltac:(lia)).
    rewrite Hr'. f_equal. lia.
  - intros n Hn. unfold get_common_size. apply get_common_size_loop_stuck; [exact Hn|].
    right. exists 0. split; [lia|reflexivity].
Qed.

Lemma get_common_size_padding_witness :
  get_common_size 0 = Some 1 /\
  (exists r, get_common_size 6 = Some r /\ 6 <= r < 2 * 6) /\
  get_common_size 8 = Some 8 /\
  get_common_size (2 ^ 63 + 5) = None.
Proof.
  split; [apply (proj1 get_common_size_padding 0); lia|].
  split; [apply (proj1 (proj2 get_common_size_padding) 6); lia|].
  split; [apply (proj1 (proj2 (proj2 get_common_size_padding)) 6 8); reflexivity|].
  apply (proj2 (proj2 (proj2 get_common_size_padding)) (2 ^ 63 + 5)). lia.
Defined.

(** ** [resize] *)

Lemma resize_min (n_in n_out : Z) :
  (if n_out <? n_in then n_out else n_in) = Z.min n_in n_out.
Proof. destruct (Z.ltb_spec n_out n_in); lia. Qed.

(** With the smaller count inside an [int], the copy and the zero fill. *)
Lemma resize_in_range (E : environment) (samples : list sample_d) (n_out : Z) :
  let n_in := Z.of_nat (length samples) in
  0 <= n_out -> Z.min n_in n_out < 2 ^ 31 ->
  malloc_ok E (to_size_t (sizeof_sample_d * n_out)) = true ->
  resize E samples n_in n_out =
  Ret (firstn (Z.to_nat (Z.min n_in n_out)) samples ++
       repeat (S754_zero false) (Z.to_nat (n_out - Z.min n_in n_out))).
Proof.
  intros n_in Hout Hmin Halloc. unfold resize, ehmalloc.
  rewrite Halloc. cbn [bind]. rewrite resize_min.
  assert (Hm : 0 <= Z.min n_in n_out) by (unfold n_in; lia).
  rewrite to_int_small by lia.
  rewrite to_size_t_small by (unfold sizeof_sample_d; lia).
  replace (Z.min n_in n_out * sizeof_sample_d <=? sizeof_sample_d * n_out) with true
    by (symmetry; apply Z.leb_le; unfold sizeof_sample_d; lia).
  replace (Z.min n_in n_out * sizeof_sample_d <=?
           sizeof_sample_d * Z.of_nat (length samples)) with true
    by (symmetry; apply Z.leb_le; unfold sizeof_sample_d, n_in; lia).
  cbn [andb]. unfold sizeof_sample_d. rewrite Z.div_mul by lia.
  rewrite length_firstn.
  replace (Z.to_nat n_out - Nat.min (Z.to_nat (Z.min n_in n_out)) (length samples))%nat
    with (Z.to_nat (n_out - Z.min n_in n_out)) by (unfold n_in in *; lia).
  reflexivity.
Qed.



(** ** [convert_to_samples] *)




(** ** The filter loop and the cross-power spectrum *)

(** X4.  A table of callbacks closed by the sentinel, with as many contexts: the
    loop runs the callbacks in table order, each with the context of its
    rank, on the query spectrum and, separately, on the base spectrum; what
    follows the sentinel and the contexts in excess are not looked at.
    Without a sentinel, or with a context missing, the loop reads past an
    array. *)
Theorem apply_filters_in_order :
  (forall fs ds rest more n t b,
      length fs = length ds ->
      apply_filters (map Some fs ++ None :: rest) (ds ++ more) n t b
      = Ret (run_chain (combine fs ds) n t, run_chain (combine fs ds) n b)) /\
  (forall fs ds more n t b,
      length fs = length ds ->
      apply_filters (map Some fs) (ds ++ more) n t b = Fault UndefinedBehaviour) /\
  (forall fs ds f rest n t b,
      length fs = length ds ->
      apply_filters (map Some fs ++ Some f :: rest) ds n t b = Fault UndefinedBehaviour).
Proof.
  split; [|split].
  - induction fs as [|f fs IH]; intros [|d ds] rest more n t b Hlen;
      try discriminate; [reflexivity|].
    cbn [map app apply_filters combine run_chain fold_left fst snd].
    apply IH. cbn in Hlen. lia.
  - induction fs as [|f fs IH]; intros [|d ds] more n t b Hlen;
      try discriminate; [reflexivity|].
    cbn [map app apply_filters]. apply IH. cbn in Hlen. lia.
  - induction fs as [|f0 fs IH]; intros [|d ds] f rest n t b Hlen;
      try discriminate; [reflexivity|].
    cbn [map app apply_filters]. apply IH. cbn in Hlen. lia.
Qed.

Lemma apply_filters_in_order_witness :
  apply_filters [Some Run.keep; Some Run.keep; None; Some Run.keep] [10; 20; 30] 3
                [(Run.fone, Run.fzero)] []
  = Ret ([(Run.fone, Run.fzero)], []) /\
  apply_filters [Some Run.keep] [10; 20] 3 [(Run.fone, Run.fzero)] []
  = Fault UndefinedBehaviour /\
  apply_filters [Some Run.keep; Some Run.keep; None] [10] 3 [(Run.fone, Run.fzero)] []
  = Fault UndefinedBehaviour.
Proof.
  split; [|split].
  - apply (proj1 apply_filters_in_order [Run.keep; Run.keep] [10; 20]
             [Some Run.keep] [30]). reflexivity.
  - apply (proj1 (proj2 apply_filters_in_order) [Run.keep] [10] [20]). reflexivity.
  - apply (proj2 (proj2 apply_filters_in_order) [Run.keep] [10] Run.keep [None]).
    reflexivity.
Defined.

(** *** The product of line 444 *)

Lemma binary_round_aux_opp (prec emax : Z) (s : bool) (m e : Z) (l : location) :
  binary_round_aux prec emax (negb s) m e l = SFopp (binary_round_aux prec emax s m e l).
Proof.
  unfold binary_round_aux.
  destruct (shr_fexp prec emax m e l) as [mrs e1].
  destruct (shr_fexp prec emax _ e1 loc_Exact) as [mrs2 e2].
  destruct (shr_m mrs2); [reflexivity| |reflexivity].
  destruct (e2 <=? emax - prec); reflexivity.
Qed.

Lemma SFmul_opp_l (prec emax : Z) (u v : spec_float) :
  SFmul prec emax (SFopp u) v = SFopp (SFmul prec emax u v).
Proof.
  destruct u as [su|su| |su mu eu], v as [sv|sv| |sv mv ev]; cbn [SFopp SFmul];
    try reflexivity;
    try (destruct su, sv; reflexivity).
  replace (xorb (negb su) sv) with (negb (xorb su sv)) by (destruct su, sv; reflexivity).
  apply binary_round_aux_opp.
Qed.

Lemma SFsub_opp_r (prec emax : Z) (p q : spec_float) :
  SFsub prec emax p (SFopp q) = SFadd prec emax p q.
Proof.
  destruct p as [sp|sp| |sp mp ep], q as [sq|sq| |sq mq eq]; cbn [SFopp SFsub SFadd];
    try reflexivity;
    try (destruct sp, sq; reflexivity);
    try (destruct sq; reflexivity);
    try (f_equal; destruct sq; cbn [negb cond_Zopp]; lia).
Qed.

Lemma SFadd_opp_r (prec emax : Z) (p q : spec_float) :
  SFadd prec emax p (SFopp q) = SFsub prec emax p q.
Proof.
  destruct p as [sp|sp| |sp mp ep], q as [sq|sq| |sq mq eq]; cbn [SFopp SFsub SFadd];
    try reflexivity;
    try (destruct sp, sq; reflexivity);
    try (destruct sq; reflexivity);
    try (f_equal; destruct sq; cbn [negb cond_Zopp]; lia).
Qed.

(** Unless both parts come out NaN, the C99 product of the conjugate is the
    textbook formula. *)
Lemma conj_mul_textbook (q b : sample_f) :
  is_nan (fst (textbook_cross_power q b)) && is_nan (snd (textbook_cross_power q b)) = false ->
  conj_mul q b = textbook_cross_power q b.
Proof.
  intros H. unfold conj_mul, complex_mul, conjf. cbn [fst snd].
  unfold textbook_cross_power, fmul, fsub, fadd in *. cbn [fst snd] in H.
  rewrite !SFmul_opp_l, SFsub_opp_r, SFadd_opp_r, H. reflexivity.
Qed.

Lemma fmul_zero_l (s s' : bool) (c : sample_d) :
  zero_or_nan (fmul (S754_zero s) c) (fmul (S754_zero s') c).
Proof.
  destruct c; cbn; [right; eauto|left; auto|left; auto|right; eauto].
Qed.

Lemma fmul_zero_r (s s' : bool) (c : sample_d) :
  zero_or_nan (fmul c (S754_zero s)) (fmul c (S754_zero s')).
Proof.
  destruct c; cbn; [right; eauto|left; auto|left; auto|right; eauto].
Qed.

Lemma recover_part (x x' y : sample_d) :
  zero_or_nan x x' ->
  fmul INFINITY (fsub x y) = fmul INFINITY (fsub x' y) /\
  fmul INFINITY (fsub y x) = fmul INFINITY (fsub y x') /\
  fmul INFINITY (fadd x y) = fmul INFINITY (fadd x' y) /\
  fmul INFINITY (fadd y x) = fmul INFINITY (fadd y x').
Proof.
  intros [[-> ->]|(t & t' & -> & ->)]; [repeat split; reflexivity|].
  destruct y as [sy|sy| |sy my ey]; destruct t, t'; try destruct sy;
    repeat split; reflexivity.
Qed.

(** Whatever sign a zero is given, the recovered product is the same: the
    sign [copysignf] takes from a NaN does not reach the result. *)
Lemma recover_sign_of_zero (s s' : bool) (u v w : sample_d) :
  recover (S754_zero s) u v w = recover (S754_zero s') u v w /\
  recover u (S754_zero s) v w = recover u (S754_zero s') v w /\
  recover u v (S754_zero s) w = recover u v (S754_zero s') w /\
  recover u v w (S754_zero s) = recover u v w (S754_zero s').
Proof.
  unfold recover. repeat split; f_equal.
  - apply (recover_part _ _ _ (fmul_zero_l s s' v)).
  - apply (recover_part _ _ _ (fmul_zero_l s s' w)).
  - apply (recover_part _ _ _ (fmul_zero_l s s' w)).
  - apply (recover_part _ _ _ (fmul_zero_l s s' v)).
  - apply (recover_part _ _ _ (fmul_zero_r s s' u)).
  - apply (recover_part _ _ _ (fmul_zero_r s s' v)).
  - apply (recover_part _ _ _ (fmul_zero_r s s' v)).
  - apply (recover_part _ _ _ (fmul_zero_r s s' u)).
Qed.

Lemma cross_power_nth (bins : nat) :
  forall t b j d,
    (j < bins)%nat -> (j < length t)%nat -> (j < length b)%nat ->
    nth j (cross_power bins t b) d = conj_mul (nth j t d) (nth j b d).
Proof.
  induction bins as [|bins IH]; intros [|x t] [|y b] j d Hj Ht Hb;
    cbn in Ht, Hb; try lia.
  destruct j as [|j]; [reflexivity|].
  cbn [cross_power nth]. apply IH; lia.
Qed.

(** X5.  The cross-power loop against the textbook: the array keeps its
    length and its bins from [bins] on; each of the first [bins] bins
    becomes conj(q) * b = (qr*br + qi*bi, qr*bi - qi*br), every operation
    rounded to [float], whenever that pair is not NaN in both parts.  Where
    it is, the bin is not always (NaN, NaN): the C99 product recovers
    infinities, so that the query bin (inf, inf) against the base bin (1, 0)
    gives (inf, -inf). *)
Theorem cross_power_against_textbook :
  (forall bins t b, length (cross_power bins t b) = length t) /\
  (forall bins t b j d,
      (j < bins)%nat -> (j < length t)%nat -> (j < length b)%nat ->
      is_nan (fst (textbook_cross_power (nth j t d) (nth j b d)))
      && is_nan (snd (textbook_cross_power (nth j t d) (nth j b d))) = false ->
      nth j (cross_power bins t b) d = textbook_cross_power (nth j t d) (nth j b d)) /\
  (forall bins t b j d,
      (bins <= j)%nat -> nth j (cross_power bins t b) d = nth j t d) /\
  (textbook_cross_power (INFINITY, INFINITY) (float_of_Z 1, S754_zero false)
   = (S754_nan, S754_nan) /\
   cross_power 1 [(INFINITY, INFINITY)] [(float_of_Z 1, S754_zero false)]
   = [(INFINITY, S754_infinity true)]).
Proof.
  split; [|split; [|split]].
  - induction bins as [|bins IH]; intros [|x t] [|y b]; cbn; try reflexivity.
    rewrite IH. reflexivity.
  - intros bins t b j d Hj Ht Hb Hnan.
    rewrite cross_power_nth by assumption.
    apply conj_mul_textbook. exact Hnan.
  - induction bins as [|bins IH]; intros [|x t] [|y b] j d Hj; try reflexivity.
    destruct j as [|j]; [lia|].
    cbn [cross_power nth]. apply IH. lia.
  - split; vm_compute; reflexivity.
Qed.

Lemma cross_power_against_textbook_witness :
  let t := [(Run.fone, Run.fone); (Run.fone, Run.fzero); (Run.fzero, Run.fone)] in
  let b := [(Run.fone, Run.fzero); (Run.fzero, Run.fone); (Run.fone, Run.fone)] in
  nth 1 (cross_power 2 t b) (Run.fzero, Run.fzero)
  = textbook_cross_power (Run.fone, Run.fzero) (Run.fzero, Run.fone) /\
  nth 2 (cross_power 2 t b) (Run.fzero, Run.fzero) = (Run.fzero, Run.fone).
Proof.
  split.
  - apply (proj1 (proj2 cross_power_against_textbook) 2%nat
             [(Run.fone, Run.fone); (Run.fone, Run.fzero); (Run.fzero, Run.fone)]
             [(Run.fone, Run.fzero); (Run.fzero, Run.fone); (Run.fone, Run.fone)]
             1%nat (Run.fzero, Run.fzero));
      [cbn; lia|cbn; lia|cbn; lia|vm_compute; reflexivity].
  - apply (proj2 (proj2 cross_power_against_textbook)). lia.
Defined.

(** ** The peak scan on arbitrary data *)

Lemma fgt_not_nan (c maxv : spec_float) : fgt c maxv = true -> is_nan c = false.
Proof.
  unfold fgt, SFltb, SFcompare.
  destruct c as [s|s| |s m e], maxv as [s'|s'| |s' m' e']; cbn;
    intros H; try discriminate; reflexivity.
Qed.

Lemma peak_loop_picked (rest : list sample_d) :
  forall pre maxv in_,
    Z.of_nat (length pre + length rest) <= 2 ^ 31 ->
    picked pre in_ ->
    picked (pre ++ rest) (peak_loop rest (Z.of_nat (length pre)) maxv in_).
Proof.
  induction rest as [|c rest IH]; intros pre maxv in_ Hlen Hin.
  - rewrite app_nil_r. exact Hin.
  - cbn [peak_loop length] in *.
    replace (pre ++ c :: rest) with ((pre ++ [c]) ++ rest)
      by (rewrite <- app_assoc; reflexivity).
    replace (Z.of_nat (length pre) + 1) with (Z.of_nat (length (pre ++ [c])))
      by (rewrite length_app; cbn; lia).
    destruct (fgt (double_of_float c) (double_of_float maxv)) eqn:Hgt.
    + apply IH; [rewrite length_app; cbn; lia|].
      right. exists (length pre).
      split; [apply to_int_small; lia|].
      split; [rewrite length_app; cbn; lia|].
      rewrite nth_middle. apply fgt_not_nan in Hgt. exact Hgt.
    + apply IH; [rewrite length_app; cbn; lia|].
      destruct Hin as [->|(k & Hk & Hlt & Hnan)]; [left; reflexivity|].
      right. exists k. split; [exact Hk|].
      split; [rewrite length_app; cbn; lia|].
      rewrite app_nth1 by exact Hlt. exact Hnan.
Qed.

(** X6.  Whatever the correlation holds (NaN and infinities included) and
    however long the array is, for a padded length of at most 2^31 the scan
    leaves an index below the padded length, and an index other than 0 is the
    rank of a cell that is not a NaN; on cells that are all NaN it leaves 0. *)
Theorem peak_search_on_any_data (convolved : list sample_d) (common_size : Z) :
  0 < common_size <= 2 ^ 31 ->
  let p := peak_search convolved common_size in
  0 <= p < common_size /\
  (p <> 0 ->
   (Z.to_nat p < length convolved)%nat /\ is_nan (sample_at convolved p) = false) /\
  (Forall (fun x => is_nan x = true) convolved -> p = 0).
Proof.
  intros Hcs p.
  assert (Hrange : 0 <= p < common_size) by (apply peak_search_range; exact Hcs).
  set (scanned := firstn (Z.to_nat common_size) convolved).
  assert (Hpick : picked scanned p).
  { pose proof (peak_loop_picked scanned [] (float_of_double (SFopp DBL_MAX)) 0) as H.
    cbn [app length Nat.add Z.of_nat] in H. apply H; [|left; reflexivity].
    unfold scanned. rewrite length_firstn. lia. }
  assert (Hcell : p <> 0 ->
            (Z.to_nat p < length convolved)%nat /\ is_nan (sample_at convolved p) = false).
  { intros Hp. destruct Hpick as [->|(k & Hk & Hlt & Hnan)]; [congruence|].
    unfold scanned in Hlt, Hnan. rewrite length_firstn in Hlt.
    unfold sample_at. rewrite Hk, Nat2Z.id. split; [lia|].
    rewrite nth_firstn in Hnan.
    replace (k <? Z.to_nat common_size)%nat with true in Hnan
      by (symmetry; apply Nat.ltb_lt; lia).
    exact Hnan. }
  split; [exact Hrange|]. split; [exact Hcell|].
  intros Hall. destruct (Z.eq_dec p 0) as [Hz|Hnz]; [exact Hz|].
  destruct (Hcell Hnz) as [Hlt Hnan].
  rewrite Forall_forall in Hall.
  assert (Hin : In (sample_at convolved p) convolved) by (apply nth_In; exact Hlt).
  apply Hall in Hin. congruence.
Qed.

Lemma peak_search_on_any_data_witness :
  let convolved := [S754_nan; S754_infinity true; float_of_Z 3; S754_nan] in
  let p := peak_search convolved 4 in
  0 <= p < 4 /\
  (p <> 0 ->
   (Z.to_nat p < length convolved)%nat /\ is_nan (sample_at convolved p) = false) /\
  (Forall (fun x => is_nan x = true) convolved -> p = 0).
Proof.
  apply (peak_search_on_any_data [S754_nan; S754_infinity true; float_of_Z 3; S754_nan] 4).
  lia.
Defined.

(** ** The corrected peak *)

(** X7.  For a peak index below a padded length of at most 2^31 and a query no
    longer than the padded length, the corrected value is the peak itself or
    the peak less the padded length: it is congruent to the peak, it is
    negative exactly when the peak is above the threshold, it never exceeds
    the threshold and never goes below [1 - num_samples / 2]. *)
Theorem wraparound_lag_range (peak common_size num_samples : Z) :
  0 <= peak < common_size -> common_size <= 2 ^ 31 ->
  0 <= num_samples <= common_size ->
  let lag := wraparound peak common_size num_samples in
  lag mod common_size = peak /\
  (lag < 0 <-> common_size - num_samples / 2 < peak) /\
  Z.min 0 (1 - num_samples / 2) <= lag <= common_size - num_samples / 2.
Proof.
  intros Hp Hcs Hn lag.
  assert (Hhalf : 0 <= num_samples / 2 <= num_samples).
  { split; [apply Z.div_pos; lia|]. apply Z.div_le_upper_bound; lia. }
  unfold lag. rewrite wraparound_in_range by assumption.
  destruct (peak >? common_size - num_samples / 2) eqn:Hgt.
  - apply Z.gtb_lt in Hgt. split; [|lia].
    symmetry. apply Z.mod_unique_pos with (q := -1); lia.
  - rewrite Z.gtb_ltb in Hgt. apply Z.ltb_ge in Hgt. split; [|lia].
    apply Z.mod_small. lia.
Qed.

Lemma wraparound_lag_range_witness :
  let lag := wraparound 7 8 4 in
  lag mod 8 = 7 /\ (lag < 0 <-> 8 - 4 / 2 < 7) /\
  Z.min 0 (1 - 4 / 2) <= lag <= 8 - 4 / 2.
Proof. apply (wraparound_lag_range 7 8 4); lia. Defined.

(** ** [shenidam_set_base_audio]: all or nothing *)

Lemma resample_parallel_single_count (E : environment) (x out : list sample_d)
  (ratio : double) (asked n : Z) :
  SHENIDAM_PARALLEL_OMP E = false \/ omp_get_num_threads E = 1 ->
  resample_parallel E x ratio asked = Ret (out, n) ->
  n = Z.of_nat (length out).
Proof.
  intros Hsingle. unfold resample_parallel.
  assert (Hres : resample E x ratio asked = Ret (out, n) -> n = Z.of_nat (length out)).
  { unfold resample. intros H. split_bind H as u Hu. injection H as <- <-. reflexivity. }
  destruct Hsingle as [-> | ->]; cbn [negb]; [exact Hres|].
  destruct (negb (SHENIDAM_PARALLEL_OMP E)); exact Hres.
Qed.

(** X8.  A call that returns anything but [SUCCESS] leaves the session as it
    was, and it never returns [BASE_SIGNAL_NOT_SET].  A call that returns
    [SUCCESS] found no base, leaves one, records the rate it was given, sets a
    non-negative count and keeps the working rate, the filters and the thread
    count; when resampling is not chunked the count is the length of the
    committed buffer. *)
Theorem set_base_audio_all_or_nothing (E : environment) (s s' : shenidam_t_impl)
  (fmt : format) (samples : list raw_value) (rate : double) (st : status) :
  shenidam_set_base_audio E s fmt samples rate = Ret (st, s') ->
  st <> BASE_SIGNAL_NOT_SET /\
  (st <> SUCCESS -> s' = s) /\
  (st = SUCCESS ->
   base s = None /\
   base_real_sample_rate s' = rate /\
   base_sample_rate s' = base_sample_rate s /\
   frequential_filters s' = frequential_filters s /\
   frequential_filter_data s' = frequential_filter_data s /\
   num_threads s' = num_threads s /\
   0 <= base_num_samples s' /\
   exists buffer,
     base s' = Some buffer /\
     (SHENIDAM_PARALLEL_OMP E = false \/ omp_get_num_threads E = 1 ->
      base_num_samples s' = Z.of_nat (length buffer))).
Proof.
  unfold shenidam_set_base_audio. intros H.
  apply with_setjmp_Ret_inv in H. destruct H as [H|[_ H]].
  2:{ injection H as -> ->. repeat split; congruence. }
  destruct (base s) eqn:Hbase.
  { injection H as <- <-. repeat split; congruence. }
  split_bind H as converted Hconv.
  destruct converted as [base0|].
  2:{ injection H as <- <-. repeat split; congruence. }
  split_bind H as asked Hasked.
  split_bind H as out Hout. destruct out as [temp count].
  injection H as <- <-.
  split; [discriminate|]. split; [congruence|]. intros _.
  cbn [base base_real_sample_rate base_sample_rate frequential_filters
       frequential_filter_data num_threads base_num_samples].
  repeat split.
  - eapply resample_parallel_count_nonneg. exact Hout.
  - exists temp. split; [reflexivity|]. intros Hsingle.
    eapply resample_parallel_single_count; eassumption.
Qed.

Lemma set_base_audio_all_or_nothing_witness :
  SUCCESS <> BASE_SIGNAL_NOT_SET /\
  (SUCCESS <> SUCCESS -> Run.ready = Run.fresh 48000) /\
  (SUCCESS = SUCCESS ->
   base (Run.fresh 48000) = None /\
   base_real_sample_rate Run.ready = double_of_Z 48000 /\
   base_sample_rate Run.ready = base_sample_rate (Run.fresh 48000) /\
   frequential_filters Run.ready = frequential_filters (Run.fresh 48000) /\
   frequential_filter_data Run.ready = frequential_filter_data (Run.fresh 48000) /\
   num_threads Run.ready = num_threads (Run.fresh 48000) /\
   0 <= base_num_samples Run.ready /\
   exists buffer,
     base Run.ready = Some buffer /\
     (SHENIDAM_PARALLEL_OMP (Run.env Run.always) = false \/
      omp_get_num_threads (Run.env Run.always) = 1 ->
      base_num_samples Run.ready = Z.of_nat (length buffer))).
Proof.
  apply (set_base_audio_all_or_nothing (Run.env Run.always) (Run.fresh 48000) Run.ready
           FORMAT_INT (map RawInteger [3; -2; 1; -1]) (double_of_Z 48000) SUCCESS).
  vm_compute. reflexivity.
Defined.

(** ** Sample rates that are not numbers, or zero *)

Lemma round_of_quotient_by_zero_or_nan (x rate : double) :
  rate = S754_nan \/ rate = S754_zero false \/ rate = S754_zero true ->
  round_half_away (ddiv x rate) = None.
Proof.
  intros [-> | [-> | ->]]; destruct x as [s|s| |s m e]; reflexivity.
Qed.

Lemma convert_to_samples_supported (E : environment) (fmt : format)
  (samples : list raw_value) :
  (forall tag, fmt <> FORMAT_OTHER tag) ->
  malloc_ok E (to_size_t (sizeof_sample_d * Z.of_nat (length samples))) = true ->
  convert_to_samples E fmt samples = Ret (Some (map cast_to_sample samples)).
Proof.
  intros Hfmt Halloc. unfold convert_to_samples, ehmalloc. rewrite Halloc. cbn [bind].
  destruct fmt; try reflexivity. exfalso. eapply Hfmt. reflexivity.
Qed.

(** X9.  On a session without a base, with a supported format and a conversion
    buffer that can be allocated, a sample rate of zero (of either sign) or
    NaN is not refused: the count asked of the resampler is the conversion to
    [size_t] of an infinity or a NaN, which C leaves undefined. *)
Theorem set_base_audio_zero_or_nan_rate (E : environment) (s : shenidam_t_impl)
  (fmt : format) (samples : list raw_value) (rate : double) :
  base s = None ->
  (forall tag, fmt <> FORMAT_OTHER tag) ->
  malloc_ok E (to_size_t (sizeof_sample_d * Z.of_nat (length samples))) = true ->
  rate = S754_nan \/ rate = S754_zero false \/ rate = S754_zero true ->
  shenidam_set_base_audio E s fmt samples rate = Fault UndefinedBehaviour.
Proof.
  intros Hbase Hfmt Halloc Hrate. unfold shenidam_set_base_audio.
  rewrite Hbase, (convert_to_samples_supported E fmt samples Hfmt Halloc). cbn [bind].
  rewrite round_of_quotient_by_zero_or_nan by exact Hrate. reflexivity.
Qed.

Lemma set_base_audio_zero_or_nan_rate_witness :
  shenidam_set_base_audio (Run.env Run.always) (Run.fresh 48000) FORMAT_INT
    (map RawInteger [3; -2; 1; -1]) (S754_zero false) = Fault UndefinedBehaviour.
Proof.
  apply set_base_audio_zero_or_nan_rate.
  - reflexivity.
  - discriminate.
  - reflexivity.
  - right. left. reflexivity.
Defined.

(** X10.  A query at a NaN sample rate, on a session with a base, with a
    non-empty buffer of a supported format that can be converted, passes the
    test [sample_rate <= 0] and reaches the conversion to [size_t] of a NaN:
    it is not answered with [INVALID_ARGUMENT]. *)
Theorem get_audio_range_nan_rate (E : environment) (s : shenidam_t_impl)
  (fmt : format) (samples : list raw_value) :
  base s <> None -> samples <> [] ->
  (forall tag, fmt <> FORMAT_OTHER tag) ->
  malloc_ok E (to_size_t (sizeof_sample_d * Z.of_nat (length samples))) = true ->
  shenidam_get_audio_range E s fmt samples S754_nan = Fault UndefinedBehaviour.
Proof.
  intros Hbase Hsamples Hfmt Halloc. unfold shenidam_get_audio_range.
  destruct (base s) as [base0|]; [|congruence].
  cbn [fle SFleb SFcompare].
  replace (Z.of_nat (length samples) =? 0) with false
    by (symmetry; apply Z.eqb_neq; destruct samples; [congruence|cbn; lia]).
  rewrite (convert_to_samples_supported E fmt samples Hfmt Halloc). cbn [bind].
  unfold prepare_track.
  assert (Hratio : ddiv (base_sample_rate s) S754_nan = S754_nan)
    by (destruct (base_sample_rate s); reflexivity).
  rewrite Hratio. cbn [fne SFeqb SFcompare negb].
  assert (Hprod : forall x, dmul x S754_nan = S754_nan) by (intros [?|?| |? ? ?]; reflexivity).
  rewrite Hprod. reflexivity.
Qed.

Lemma get_audio_range_nan_rate_witness :
  shenidam_get_audio_range (Run.env Run.always) Run.ready FORMAT_INT Run.early_query
    S754_nan = Fault UndefinedBehaviour.
Proof.
  apply get_audio_range_nan_rate.
  - discriminate.
  - discriminate.
  - discriminate.
  - reflexivity.
Defined.

(** ** What each status of a query tells *)

(** Closes the cases a status rules out. *)
Ltac status_cases :=
  repeat split; intros;
  try congruence;
  try (match goal with Hd : _ \/ _ |- _ => destruct Hd; congruence end).

(** X11.  A query never answers [ALREADY_SET_BASE_SIGNAL].  [BASE_SIGNAL_NOT_SET]
    means the session has no base; [INVALID_ARGUMENT] means it has one and
    the rate compares [<= 0], or the query is empty, or the format is not
    supported; [ALLOCATION_ERROR] and [SUCCESS] are reached only past the
    tests on the base, the rate and the count, and [SUCCESS] only with a
    supported format, the two outputs being written. *)
Theorem get_audio_range_status_causes (E : environment) (s s' : shenidam_t_impl)
  (fmt : format) (samples : list raw_value) (rate : double)
  (st : status) (out : option (Z * Z)) :
  shenidam_get_audio_range E s fmt samples rate = Ret (st, s', out) ->
  st <> ALREADY_SET_BASE_SIGNAL /\
  (st = BASE_SIGNAL_NOT_SET -> base s = None) /\
  (st = INVALID_ARGUMENT ->
   base s <> None /\
   (fle rate dzero = true \/ samples = [] \/ exists tag, fmt = FORMAT_OTHER tag)) /\
  (st = ALLOCATION_ERROR \/ st = SUCCESS ->
   base s <> None /\ fle rate dzero = false /\ samples <> []) /\
  (st = SUCCESS -> (forall tag, fmt <> FORMAT_OTHER tag) /\ out <> None).
Proof.
  unfold shenidam_get_audio_range. intros H.
  destruct (base s) as [base0|] eqn:Hbase.
  2:{ cbn [with_setjmp] in H. injection H as <- <- <-.
      status_cases. }
  destruct (fle rate dzero) eqn:Hrate.
  { cbn [with_setjmp] in H. injection H as <- <- <-.
    status_cases.
    left. reflexivity. }
  destruct (Z.of_nat (length samples) =? 0) eqn:Hcount.
  { cbn [with_setjmp] in H. injection H as <- <- <-.
    status_cases.
    right. left. apply Z.eqb_eq in Hcount. destruct samples; [reflexivity|cbn in Hcount; lia]. }
  assert (Hne : samples <> []).
  { intros ->. cbn in Hcount. discriminate. }
  apply with_setjmp_Ret_inv in H. destruct H as [H|[_ H]].
  2:{ injection H as -> -> ->. status_cases. }
  split_bind H as converted Hconv.
  destruct converted as [track0|].
  - assert (Hfmt : forall tag, fmt <> FORMAT_OTHER tag).
    { intros tag ->. unfold convert_to_samples in Hconv.
      split_bind Hconv as u Hu. discriminate. }
    split_bind H as tn Hprep. destruct tn as [track n].
    split_bind H as cs Hcs.
    split_bind H as convolved Hcorr.
    split_bind H as result Hloc.
    injection H as <- <- <-. status_cases.
  - injection H as <- <- <-.
    status_cases.
    right. right. unfold convert_to_samples in Hconv. split_bind Hconv as u Hu.
    destruct fmt; try discriminate. eexists. reflexivity.
Qed.

Lemma get_audio_range_status_causes_witness :
  INVALID_ARGUMENT <> ALREADY_SET_BASE_SIGNAL /\
  (INVALID_ARGUMENT = BASE_SIGNAL_NOT_SET -> base Run.ready = None) /\
  (INVALID_ARGUMENT = INVALID_ARGUMENT ->
   base Run.ready <> None /\
   (fle (double_of_Z 48000) dzero = true \/ Run.early_query = [] \/
    exists tag, FORMAT_OTHER 99 = FORMAT_OTHER tag)) /\
  (INVALID_ARGUMENT = ALLOCATION_ERROR \/ INVALID_ARGUMENT = SUCCESS ->
   base Run.ready <> None /\ fle (double_of_Z 48000) dzero = false /\
   Run.early_query <> []) /\
  (INVALID_ARGUMENT = SUCCESS ->
   (forall tag, FORMAT_OTHER 99 <> FORMAT_OTHER tag) /\ @None (Z * Z) <> None).
Proof.
  apply (get_audio_range_status_causes (Run.env Run.always) Run.ready Run.ready
           (FORMAT_OTHER 99) Run.early_query (double_of_Z 48000) INVALID_ARGUMENT None).
  vm_compute. reflexivity.
Defined.

(** ** A session as [shenidam_create] leaves it *)

(** X12.  Whatever rate it is given (no rate is refused), a creation that returns
    gives a session at that working rate with at least one thread, on which
    every query answers [BASE_SIGNAL_NOT_SET], the filter loop leaves both
    spectra untouched, and committing a base is not answered with
    [ALREADY_SET_BASE_SIGNAL]. *)
Theorem created_session_is_empty (E : environment) (rate : double)
  (threads filters_at : Z) (junk_rate : double) (junk_count : Z) (s : shenidam_t_impl) :
  shenidam_create E rate threads filters_at junk_rate junk_count = Ret s ->
  base_sample_rate s = rate /\
  num_threads s = Z.max 1 threads /\
  (forall fmt samples r,
      shenidam_get_audio_range E s fmt samples r = Ret (BASE_SIGNAL_NOT_SET, s, None)) /\
  (forall n t b,
      apply_filters (table_cells (frequential_filters s)) (frequential_filter_data s) n t b
      = Ret (t, b)) /\
  (forall fmt samples r st s',
      shenidam_set_base_audio E s fmt samples r = Ret (st, s') ->
      st <> ALREADY_SET_BASE_SIGNAL).
Proof.
  unfold shenidam_create. intros H.
  split_bind H as u1 H1. split_bind H as u2 H2. injection H as <-.
  cbn [base_sample_rate num_threads].
  split; [reflexivity|].
  split; [destruct (Z.leb_spec threads 1); lia|].
  split; [intros; reflexivity|].
  split; [intros; reflexivity|].
  intros fmt samples r st s' H. unfold shenidam_set_base_audio in H. cbn [base] in H.
  apply with_setjmp_Ret_inv in H. destruct H as [H|[_ H]]; [|congruence].
  split_bind H as converted Hconv. destruct converted as [base0|]; [|congruence].
  split_bind H as asked Hasked.
  split_bind H as out Hout. destruct out as [temp count]. congruence.
Qed.

Lemma created_session_is_empty_witness :
  shenidam_get_audio_range (Run.env Run.always) (Run.fresh (-7)) FORMAT_INT
    Run.early_query (double_of_Z 48000)
  = Ret (BASE_SIGNAL_NOT_SET, Run.fresh (-7), None) /\
  num_threads (Run.fresh (-7)) = Z.max 1 (-3).
Proof.
  pose proof (created_session_is_empty (Run.env Run.always) (double_of_Z (-7)) (-3)
                4096 S754_nan 0 (Run.fresh (-7)) ltac:(reflexivity)) as H.
  split; [apply H|apply H].
Defined.

(** ** Padding in a query *)

Lemma normalize_length (samples : list sample_d) :
  length (normalize samples) = length samples.
Proof. unfold normalize. destruct (feq _ _); apply length_map. Qed.

Lemma prepare_track_single_count (E : environment) (s : shenidam_t_impl)
  (track0 track : list sample_d) (n : Z) (rate : double) :
  SHENIDAM_PARALLEL_OMP E = false \/ omp_get_num_threads E = 1 ->
  prepare_track E s track0 (Z.of_nat (length track0)) rate = Ret (track, n) ->
  n = Z.of_nat (length track).
Proof.
  intros Hsingle. unfold prepare_track.
  destruct (fne (ddiv (base_sample_rate s) rate) (double_of_Z 1)).
  - intros H. split_bind H as asked Hasked.
    eapply resample_parallel_single_count; eassumption.
  - intros H. injection H as <- <-. rewrite normalize_length. reflexivity.
Qed.

(** X13.  When resampling is not chunked, the session's base count is the length
    of its base buffer, the two lengths add up without overflow and the padded
    length is below 2^31, the two [resize] calls of a query cut nothing off:
    the padded query is the prepared query followed by zeros up to the padded
    length, and the padded base is the base buffer followed by zeros. *)
Theorem query_padding_keeps_signals (E : environment) (s : shenidam_t_impl)
  (base0 track0 track : list sample_d) (n cs : Z) (rate : double) :
  SHENIDAM_PARALLEL_OMP E = false \/ omp_get_num_threads E = 1 ->
  base_num_samples s = Z.of_nat (length base0) ->
  prepare_track E s track0 (Z.of_nat (length track0)) rate = Ret (track, n) ->
  n + base_num_samples s < 2 ^ 64 ->
  padded_size s n = Ret cs ->
  cs < 2 ^ 31 ->
  malloc_ok E (to_size_t (sizeof_sample_d * cs)) = true ->
  resize E track n cs
    = Ret (track ++ repeat (S754_zero false) (Z.to_nat (cs - n))) /\
  resize E base0 (base_num_samples s) cs
    = Ret (base0 ++ repeat (S754_zero false) (Z.to_nat (cs - base_num_samples s))) /\
  n + base_num_samples s <= cs.
Proof.
  intros Hsingle Hbns Hprep Hsum Hpad Hcs Halloc.
  pose proof (prepare_track_single_count E s track0 track n rate Hsingle Hprep) as Hn.
  apply padded_size_get_common_size in Hpad.
  pose proof (get_common_size_bound _ _ Hpad) as [Hle Hpos].
  rewrite to_size_t_small in Hle by lia.
  split; [|split; [|exact Hle]].
  - rewrite Hn. rewrite (resize_in_range E track cs) by (try assumption; lia).
    rewrite Z.min_l by lia. rewrite Nat2Z.id, firstn_all. reflexivity.
  - rewrite Hbns. rewrite (resize_in_range E base0 cs) by (try assumption; lia).
    rewrite Z.min_l by lia. rewrite Nat2Z.id, firstn_all. reflexivity.
Qed.

Lemma query_padding_keeps_signals_witness :
  resize (Run.env Run.always) Run.early_track 4 8
    = Ret (Run.early_track ++ repeat (S754_zero false) (Z.to_nat (8 - 4))) /\
  resize (Run.env Run.always) Run.ready_base (base_num_samples Run.ready) 8
    = Ret (Run.ready_base ++
           repeat (S754_zero false) (Z.to_nat (8 - base_num_samples Run.ready))) /\
  4 + base_num_samples Run.ready <= 8.
Proof.
  apply (query_padding_keeps_signals (Run.env Run.always) Run.ready Run.ready_base
           Run.early_track0 Run.early_track 4 8 (double_of_Z 48000));
    first [left; reflexivity | vm_compute; reflexivity].
Defined.

(** ** [normalize] on silence *)

(** A count below 2^53 converts to a finite, positive [double]. *)
Lemma double_of_count_finite (n : Z) :
  0 < n < 2 ^ 53 -> exists m e, double_of_Z n = S754_finite false m e.
Proof.
  intros Hn. destruct n as [|p|p]; try lia.
  unfold double_of_Z, prec64, emax64. cbn [binary_normalize].
  rewrite binary_round_integer; [eexists; eexists; reflexivity| |lia|lia].
  apply digits2_pos_bound; lia.
Qed.

Lemma normalize_sums_silence (k : nat) :
  normalize_sums (repeat (S754_zero false) k) = (dzero, dzero).
Proof.
  unfold normalize_sums.
  induction k as [|k IH]; [reflexivity|]. cbn [repeat fold_left]. exact IH.
Qed.

(** X14.  A buffer of zeros, of any length from 1 to below 2^53, is left as it
    is: the mean and the deviation are zero, only the centering is applied,
    and no NaN appears. *)
Theorem normalize_silence (k : nat) :
  0 < Z.of_nat k < 2 ^ 53 ->
  normalize_var (repeat (S754_zero false) k) = dzero /\
  normalize (repeat (S754_zero false) k) = repeat (S754_zero false) k.
Proof.
  intros Hk.
  assert (Hmean : normalize_mean (repeat (S754_zero false) k) = dzero).
  { unfold normalize_mean. rewrite normalize_sums_silence, repeat_length. cbn [fst].
    destruct (double_of_count_finite (Z.of_nat k) Hk) as (m & e & ->). reflexivity. }
  assert (Hvar : normalize_var (repeat (S754_zero false) k) = dzero).
  { unfold normalize_var. rewrite Hmean, normalize_sums_silence. reflexivity. }
  split; [exact Hvar|].
  unfold normalize. rewrite Hvar, Hmean.
  change (feq dzero dzero) with true. cbv iota.
  rewrite map_repeat. reflexivity.
Qed.

Lemma normalize_silence_witness :
  normalize_var (repeat (S754_zero false) 3) = dzero /\
  normalize (repeat (S754_zero false) 3) = repeat (S754_zero false) 3.
Proof. apply (normalize_silence 3). vm_compute. split; reflexivity. Defined.

(** ** From a committed base to queries *)

(** X15.  Once [shenidam_set_base_audio] has succeeded, no query on the session
    it leaves is answered with [BASE_SIGNAL_NOT_SET], and every query that
    returns hands that session back, so the same holds after any number of
    queries, with any allocator and any providers. *)
Theorem committed_session_stays_ready (E E' : environment) (s s' s'' : shenidam_t_impl)
  (fmt fmt' : format) (samples samples' : list raw_value) (rate rate' : double)
  (st : status) (out : option (Z * Z)) :
  shenidam_set_base_audio E s fmt samples rate = Ret (SUCCESS, s') ->
  shenidam_get_audio_range E' s' fmt' samples' rate' = Ret (st, s'', out) ->
  st <> BASE_SIGNAL_NOT_SET /\ s'' = s'.
Proof.
  intros Hset Hget.
  split; [|eapply get_audio_range_keeps_session; exact Hget].
  apply set_base_audio_success_inv in Hset.
  destruct Hset as [_ (buffer & count & ->)].
  intros ->. unfold shenidam_get_audio_range in Hget. cbn [base] in Hget.
  destruct (fle rate' dzero); [discriminate|].
  destruct (Z.of_nat (length samples') =? 0); [discriminate|].
  apply with_setjmp_Ret_inv in Hget. destruct Hget as [H|[_ H]]; [|discriminate].
  split_bind H as converted Hconv.
  destruct converted as [track0|]; [|discriminate].
  split_bind H as tn Hprep. destruct tn as [track n].
  split_bind H as cs Hcs.
  split_bind H as convolved Hcorr.
  split_bind H as result Hloc.
  discriminate.
Qed.

Lemma committed_session_stays_ready_witness :
  ALLOCATION_ERROR <> BASE_SIGNAL_NOT_SET /\ Run.ready = Run.ready.
Proof.
  apply (committed_session_stays_ready (Run.env Run.always) (Run.env Run.never)
           (Run.fresh 48000) Run.ready Run.ready FORMAT_INT FORMAT_INT
           (map RawInteger [3; -2; 1; -1]) Run.early_query
           (double_of_Z 48000) (double_of_Z 48000) ALLOCATION_ERROR None);
    vm_compute; reflexivity.
Defined.
